(** * cabourotte: the healthcheck component, its probes and the HTTP handlers

    A shallow embedding of the Go sources:
    - [healthcheck/command.go], [healthcheck/tcp.go], [healthcheck/dns.go]:
      probe configurations, their validation, [Execute] and the DNS probe's
      periodic driver;
    - the healthcheck [Component] (the registry of running probes) with
      [NewResult], [AddCheck], [removeCheck] and [Stop], over probes as
      values (module [Registry]) and, for [AddCheck] and [removeCheck], over
      pointers to probes with the lock as a field of the state (module
      [Pointers]); the two agree when the probe handed in is not resident;
    - the two versions of the HTTP [handlers] file ([oneOff], [handleCheck],
      the Basic Auth callback and the handler of DELETE);
    - runs of the component and of the DNS driver, and the address the TCP
      probe dials.

    Go's [error] is an optional message, a [time.Duration] is a signed 64-bit
    count of nanoseconds held in [Z], a [map[string]Healthcheck] is a [gmap],
    and the [Healthcheck] interface is a type class. *)

From Stdlib Require Import ZArith Lia Bool Ascii String QArith.
From stdpp Require Import functions gmap strings pretty list fin_maps.

Open Scope Z_scope.

(** ** Errors *)

(** A Go [error]: [None] is [nil], [Some msg] an error whose [Error()] is
    [msg]. *)
Definition error : Type := option string.

(** [errors.New]. *)
Definition errors_New (msg : string) : error := Some msg.

(** [errors.Wrap] / [errors.Wrapf] (with the format already applied):
    [nil] stays [nil], otherwise the message is prefixed. *)
Definition errors_Wrap (err : error) (msg : string) : error :=
  match err with
  | None => None
  | Some e => Some (msg +:+ ": " +:+ e)
  end.

Definition is_err (e : error) : bool :=
  match e with Some _ => true | None => false end.

(** ** Durations *)

(** [Duration] wraps [time.Duration]: nanoseconds in a signed 64-bit
    integer. *)
Definition Duration : Type := Z.

(** [time.Second]. *)
Definition Second : Duration := 1000000000.

(** Two's complement wrap-around of an int64 product or sum. *)
Definition wrap64 (z : Z) : Z :=
  (z + 2 ^ 63) mod 2 ^ 64 - 2 ^ 63.

(** [Base], the fields shared by the later configurations (embedded with
    [json:",inline"] in command.go); only the fields the sources read. *)
Record Base : Type := mkBase {
  Name : string;
  Description : string;
  Interval : Duration;
  OneOff : bool
}.

(** The validation rule in the words of the specification, over the fields
    every kind is said to share: reject an empty name, a zero timeout, and,
    unless the probe is one-off, an interval under 2s or under the timeout. *)
Definition rule_rejects (name : string) (timeout interval : Duration)
    (one_off : bool) : bool :=
  (name =? "")%string || (timeout =? 0)
  || (negb one_off && ((interval <? 2 * Second) || (interval <? timeout))).

(** ** command.go *)
Module Command.

Record CommandHealthcheckConfiguration : Type := mkConfig {
  base : Base;
  Command : string;
  Arguments : list string;
  Timeout : Duration
}.

(** [Validate], the method of the configuration. *)
Definition Validate (config : CommandHealthcheckConfiguration) : error :=
  if (Name (base config) =? "")%string then
    errors_New "The healthcheck name is missing"
  else if (Command config =? "")%string then
    errors_New "The healthcheck command is missing"
  else if Timeout config =? 0 then
    errors_New "The healthcheck timeout is missing"
  else if negb (OneOff (base config)) then
    if Interval (base config) <? 2 * Second then
      errors_New "The healthcheck interval should be greater than 2 second"
    else if Interval (base config) <? Timeout config then
      errors_New "The healthcheck interval should be greater than the timeout"
    else None
  else None.

(** The deadline [Execute] gives its context:
    [time.Duration(h.Config.Timeout)*time.Second], an int64 product. *)
Definition Execute_deadline (config : CommandHealthcheckConfiguration) : Duration :=
  wrap64 (Timeout config * Second).

(** What running the command would do. [lookup_err] is the error
    [exec.Command] keeps when it cannot resolve the name ([exec.LookPath]);
    [fork_err] the error of starting the resolved program. For a process that
    starts: how long it runs if left alone, the code it exits with, and what
    it wrote to stderr by the time it ended or was killed. *)
Record Process : Type := mkProcess {
  lookup_err : error;
  fork_err : error;
  runs_for : Duration;
  exit_code : Z;
  stderr : string
}.

(** Whether the byte ['%'] occurs in [s]. *)
Fixpoint has_percent (s : string) : bool :=
  match s with
  | EmptyString => false
  | String a rest => Ascii.eqb a "%"%char || has_percent rest
  end.

Section Execute.

(** What [fmt.Sprintf] makes of a format that holds a ['%'] when it is given
    no operand: the directives of package fmt are not modelled. *)
Variable directives : string -> string.

(** [fmt.Sprintf(format)] with no operand: a format without ['%'] is copied. *)
Definition Sprintf (format : string) : string :=
  if has_percent format then directives format else format.

(** [errors.Wrapf(err, format)] with no operand: the message is the format
    as [fmt.Sprintf] renders it. *)
Definition errors_Wrapf (err : error) (format : string) : error :=
  errors_Wrap err (Sprintf format).

(** [Execute]: [exec.CommandContext(ctx, ...).Run()] under the context above,
    with stderr collected in a buffer. [Start] returns, in this order: the
    error for an empty path, the error kept from the lookup, the error of a
    context that is already done, the error of starting the process. Up to
    there nothing ran and the buffer is empty. A process still running at the
    deadline is killed and [Run] reports an [ExitError] with code -1; else
    the exit code decides. The message built with the source's two formats is
    passed to [errors.Wrapf] as its format. *)
Definition Execute (config : CommandHealthcheckConfiguration) (p : Process) : error :=
  let deadline := Execute_deadline config in
  if (Command config =? "")%string then
    errors_Wrapf (Some "exec: no command") ("The command failed, stderr=" +:+ "")
  else if is_err (lookup_err p) then
    errors_Wrapf (lookup_err p) ("The command failed, stderr=" +:+ "")
  else if deadline <=? 0 then
    errors_Wrapf (Some "context deadline exceeded")
      ("The command failed, stderr=" +:+ "")
  else if is_err (fork_err p) then
    errors_Wrapf (fork_err p) ("The command failed, stderr=" +:+ "")
  else if deadline <=? runs_for p then
    errors_Wrapf (Some "signal: killed")
      ("The command failed with code=-1, stderr=" +:+ stderr p)
  else if exit_code p =? 0 then None
  else
    errors_Wrapf (Some ("exit status " +:+ pretty (exit_code p)))
      ("The command failed with code=" +:+ pretty (exit_code p)
         +:+ ", stderr=" +:+ stderr p).

End Execute.

(** The error of [exec.LookPath] when [sleep] is not in the path; the name is
    printed between double quotes (byte 34). *)
Definition sleep_not_found : string :=
  "exec: " +:+ String (ascii_of_nat 34) ("sleep" +:+ String (ascii_of_nat 34)
    ": executable file not found in $PATH").

(** A command probe with a timeout of five seconds, and one of ten. *)
Definition sleeper (timeout : Duration) : CommandHealthcheckConfiguration :=
  mkConfig (mkBase "c1" "" (20 * Second) false) "sleep" ["10"] timeout.

End Command.

(** ** tcp.go *)
Module Tcp.

Record TCPHealthcheckConfiguration : Type := mkConfig {
  Name : string;
  Description : string;
  Target : string;
  Port : N;
  Timeout : Duration;
  Interval : Duration;
  OneOff : bool
}.

(** [ValidateTCPConfig]. *)
Definition ValidateTCPConfig (config : TCPHealthcheckConfiguration) : error :=
  if (Name config =? "")%string then
    errors_New "The healthcheck name is missing"
  else if (Target config =? "")%string then
    errors_New "The healthcheck target is missing"
  else if (Port config =? 0)%N then
    errors_New "The healthcheck port is missing"
  else if Timeout config =? 0 then
    errors_New "The healthcheck timeout is missing"
  else if Interval config <? 2 * Second then
    errors_New "The healthcheck interval should be greater than 2 second"
  else if Interval config <? Timeout config then
    errors_New "The healthcheck interval should be greater than the timeout"
  else None.

(** The deadline of [Execute]'s context: [time.Duration(h.Config.Timeout)]. *)
Definition Execute_deadline (config : TCPHealthcheckConfiguration) : Duration :=
  Timeout config.

(** What the network would do for a dial left alone: the time the connection
    takes to be established or refused, and the errors of dial and close.
    [timeout_err] is the text of the error the dialer returns when the
    context's deadline passes first, a [net.OpError] such as
    ["dial tcp 10.0.0.1:81: i/o timeout"]. *)
Record Dial : Type := mkDial {
  answers_after : Duration;
  dial_err : error;
  timeout_err : string;
  close_err : error
}.

(** [Execute], with [h.URL] as built by [Initialize]. The context derives
    from the tomb's, which only a [Stop] cancels; the dial is taken to run
    with no stop in between. *)
Definition Execute (config : TCPHealthcheckConfiguration) (URL : string)
    (d : Dial) : error :=
  let deadline := Execute_deadline config in
  let err :=
    if deadline <=? answers_after d then Some (timeout_err d) else dial_err d in
  match err with
  | Some _ => errors_Wrap err ("TCP connection failed on " +:+ URL)
  | None =>
      match close_err d with
      | Some _ => errors_Wrap (close_err d) "Unable to close TCP connection"
      | None => None
      end
  end.

End Tcp.

(** ** dns.go: configuration and validation *)
Module DnsConfig.

Record DNSHealthcheckConfiguration : Type := mkConfig {
  Name : string;
  Description : string;
  Domain : string;
  Interval : Duration;
  OneOff : bool
}.

(** [ValidateDNSConfig]: the interval is compared with the untyped constant
    5, that is 5 nanoseconds. *)
Definition ValidateDNSConfig (config : DNSHealthcheckConfiguration) : error :=
  if (Name config =? "")%string then
    errors_New "The healthcheck name is missing"
  else if (Domain config =? "")%string then
    errors_New "The healthcheck domain is missing"
  else if Interval config <? 5 then
    errors_New "The healthcheck interval should be greater than 5"
  else None.

End DnsConfig.

(** ** The healthcheck component (registry) *)
Module Registry.

(** A point of wall-clock time, as [time.Now()] reads it. *)
Definition Time : Type := Z.

(** Identity of a [chan *Result]. *)
Definition Chan : Type := nat.

(** [Result]. *)
Record Result : Type := mkResult {
  Name : string;
  Success : bool;
  Timestamp : Time;
  message : string
}.

(** The part of the [Healthcheck] interface that [NewResult] calls. *)
Class Named (H : Type) : Type := HName : H -> string.

(** The [Healthcheck] interface, as the component uses it. A method that may
    change the probe behind the pointer returns the probe as it is
    afterwards. The logging methods leave no trace in the component and are
    not part of the class. Every implementation answers [Name] from its
    configuration, which no method writes: the laws record that. *)
Class Healthcheck (H : Type) `{Named H} : Type := {
  Initialize : H -> error * H;
  Start : Chan -> H -> error * H;
  Stop : H -> error * H;
  Execute : H -> error * H;
  HName_Initialize : forall h, HName (Initialize h).2 = HName h;
  HName_Start : forall ch h, HName (Start ch h).2 = HName h;
  HName_Stop : forall h, HName (Stop h).2 = HName h;
  HName_Execute : forall h, HName (Execute h).2 = HName h
}.

(** What a call of the component does to the world around the map, in
    order: the writer lock, the probes' methods, the map's writes. *)
Inductive Event : Type :=
| EvLock
| EvUnlock
| EvInitialize (name : string)
| EvStop (name : string)
| EvStart (name : string)
| EvExecute (name : string)
| EvDelete (key : string)
| EvInsert (key : string).

Section Result.
Context {H : Type} `{Named H}.

(** [NewResult], with [now] the reading of [time.Now()]. *)
Definition NewResult (healthcheck : H) (err : error) (now : Time) : Result :=
  match err with
  | Some e =>
      {| Name := HName healthcheck; Success := false; Timestamp := now;
         message := e |}
  | None =>
      {| Name := HName healthcheck; Success := true; Timestamp := now;
         message := "success" |}
  end.

End Result.

Section Component.
Context {H : Type} `{Healthcheck H}.

(** [Component]: the map of running probes and the channel of results (the
    logger is left out, the lock shows as [EvLock]/[EvUnlock]). *)
Record Component : Type := mkComponent {
  Healthchecks : gmap string H;
  ChanResult : Chan
}.

(** [New]. *)
Definition New (chanResult : Chan) : Component :=
  {| Healthchecks := ∅; ChanResult := chanResult |}.

(** [removeCheck]: not thread-safe, called with the lock held. The map holds
    pointers, so a probe whose [Stop] failed stays in the map as [Stop] left
    it. *)
Definition removeCheck (identifier : string) (c : Component)
    : error * Component * list Event :=
  match Healthchecks c !! identifier with
  | Some existingCheck =>
      let '(err, stopped) := Stop existingCheck in
      match err with
      | Some _ =>
          (errors_Wrap err ("Fail to stop healthcheck " +:+ HName stopped),
           {| Healthchecks := <[identifier := stopped]> (Healthchecks c);
              ChanResult := ChanResult c |},
           [EvStop identifier])
      | None =>
          (None,
           {| Healthchecks := delete identifier (Healthchecks c);
              ChanResult := ChanResult c |},
           [EvStop identifier; EvDelete identifier])
      end
  | None => (None, c, [])
  end.

(** [AddCheck]. [Initialize] runs before the lock is taken; the deferred
    [Unlock] closes every path after [Lock]. *)
Definition AddCheck (healthcheck : H) (c : Component)
    : error * Component * list Event :=
  let '(err, initialized) := Initialize healthcheck in
  match err with
  | Some _ =>
      (errors_Wrap err ("Fail to initialize healthcheck " +:+ HName initialized),
       c, [EvInitialize (HName healthcheck)])
  | None =>
      let '(err, c1, removal) := removeCheck (HName initialized) c in
      match err with
      | Some _ =>
          (errors_Wrap err
             ("Fail to stop existing healthcheck " +:+ HName initialized),
           c1,
           [EvInitialize (HName healthcheck); EvLock] ++ removal ++ [EvUnlock])
      | None =>
          let '(err, started) := Start (ChanResult c1) initialized in
          match err with
          | Some _ =>
              (errors_Wrap err ("Fail to start healthcheck " +:+ HName started),
               c1,
               [EvInitialize (HName healthcheck); EvLock] ++ removal
                 ++ [EvStart (HName initialized); EvUnlock])
          | None =>
              (None,
               {| Healthchecks := <[HName started := started]> (Healthchecks c1);
                  ChanResult := ChanResult c1 |},
               [EvInitialize (HName healthcheck); EvLock] ++ removal
                 ++ [EvStart (HName initialized); EvInsert (HName started);
                     EvUnlock])
          end
      end
  end.

(** [RemoveCheck]. *)
Definition RemoveCheck (identifier : string) (c : Component)
    : error * Component * list Event :=
  let '(err, c', removal) := removeCheck identifier c in
  (err, c', [EvLock] ++ removal ++ [EvUnlock]).

(** The loop of [Stop] over the keys in the order [range] yields them. The
    first failing [Stop] returns from the function. *)
Fixpoint Stop_range (order : list string) (m : gmap string H)
    : error * gmap string H * list Event :=
  match order with
  | [] => (None, m, [])
  | key :: rest =>
      match m !! key with
      | None => Stop_range rest m
      | Some healthcheck =>
          let '(err, stopped) := Stop healthcheck in
          match err with
          | Some _ =>
              (errors_Wrap err "Fail to stop the healthcheck component",
               <[key := stopped]> m, [EvStop key])
          | None =>
              let '(err', m', evs) := Stop_range rest (<[key := stopped]> m) in
              (err', m', EvStop key :: evs)
          end
      end
  end.

(** [Stop] of the component. Go leaves the order of [range] over a map
    open: [order] is the order this run takes, each key once. *)
Definition StopComponent (order : list string) (c : Component)
    : error * Component * list Event :=
  let '(err, m, evs) := Stop_range order (Healthchecks c) in
  (err, {| Healthchecks := m; ChanResult := ChanResult c |},
   [EvLock] ++ evs ++ [EvUnlock]).

(** An order [range] may take over the map [m]. *)
Definition range_order (order : list string) (m : gmap string H) : Prop :=
  NoDup order /\ forall k, k ∈ order <-> is_Some (m !! k).

(** The map is keyed by the probes' names. *)
Definition keyed (m : gmap string H) : Prop :=
  forall k h, m !! k = Some h -> HName h = k.

End Component.

Arguments Component H : clear implicits.

(** A scripted probe: each method returns the error it was built with and
    notes the call; [running] tells whether its driver is up. *)
Record Mock : Type := mkMock {
  mock_name : string;
  init_err : error;
  start_err : error;
  stop_err : error;
  exec_err : error;
  one_off : bool;
  source : string;
  running : bool;
  calls : list string
}.

Definition mock_call (method : string) (up : bool -> bool) (m : Mock) : Mock :=
  {| mock_name := mock_name m; init_err := init_err m;
     start_err := start_err m; stop_err := stop_err m; exec_err := exec_err m;
     one_off := one_off m; source := source m;
     running := up (running m); calls := calls m ++ [method] |}.

#[global] Instance Mock_Named : Named Mock := mock_name.

#[global] Instance Mock_Healthcheck : Healthcheck Mock := {|
  Initialize m := (init_err m, mock_call "Initialize" id m);
  Start _ m :=
    (start_err m,
     mock_call "Start" (fun r => if is_err (start_err m) then r else true) m);
  Stop m :=
    (stop_err m,
     mock_call "Stop" (fun r => if is_err (stop_err m) then r else false) m);
  Execute m := (exec_err m, mock_call "Execute" id m);
  HName_Initialize _ := eq_refl;
  HName_Start _ _ := eq_refl;
  HName_Stop _ := eq_refl;
  HName_Execute _ := eq_refl
|}.

(** A probe that works: no method fails. *)
Definition good (name : string) : Mock :=
  {| mock_name := name; init_err := None; start_err := None; stop_err := None;
     exec_err := None; one_off := false; source := ""; running := false;
     calls := [] |}.

(** A probe whose [Stop] fails with [e], already running. *)
Definition stuck (name e : string) : Mock :=
  {| mock_name := name; init_err := None; start_err := None;
     stop_err := Some e; exec_err := None; one_off := false; source := "";
     running := true; calls := [] |}.

(** A probe whose driver cannot be started. *)
Definition unstartable (name e : string) : Mock :=
  {| mock_name := name; init_err := None; start_err := Some e;
     stop_err := None; exec_err := None; one_off := false; source := "";
     running := false; calls := [] |}.

(** A component with one running probe named ["web"]. *)
Definition one_probe : Component Mock :=
  {| Healthchecks := {[ "web" := (Start 0%nat (good "web")).2 ]};
     ChanResult := 0%nat |}.

(** A component with two running probes; the [Stop] of ["a"] fails. *)
Definition two_probes : Component Mock :=
  {| Healthchecks :=
       <["a" := stuck "a" "boom"]> {[ "b" := (Start 0%nat (good "b")).2 ]};
     ChanResult := 0%nat |}.

(** One execution by a probe's driver, as the tick case of [Start] runs it
    (dns.go): [Execute] is called at [began] and returns [outcome] at
    [ended]; [NewResult] is then called with the probe and the error, and
    reads the clock. *)
Record Execution (H : Type) : Type := mkExecution {
  subject : H;
  began : Time;
  ended : Time;
  outcome : error
}.

Arguments mkExecution {H}.
Arguments subject {H}.
Arguments began {H}.
Arguments ended {H}.
Arguments outcome {H}.

Definition Result_of {H : Type} `{Named H} (e : Execution H) : Result :=
  NewResult (subject e) (outcome e) (ended e).

(** The time an execution took, in nanoseconds. *)
Definition took {H : Type} (e : Execution H) : Duration :=
  ended e - began e.

(** Two executions of the probe ["web"] that end at the same time with the
    same outcome: one took a second, the other three. *)
Definition short_run : Execution Mock :=
  mkExecution (good "web") (99 * Second) (100 * Second) None.

Definition long_run : Execution Mock :=
  mkExecution (good "web") (97 * Second) (100 * Second) None.

(** The probe ["web"] with a source. *)
Definition tagged (src : string) : Mock :=
  {| mock_name := "web"; init_err := None; start_err := None; stop_err := None;
     exec_err := None; one_off := false; source := src; running := false;
     calls := [] |}.

End Registry.

(** ** The component over pointers *)
Module Pointers.

(** How a call ends: it returns an error value, or it waits for the lock. *)
Inductive Return : Type :=
| Returns (err : error)
| Waits.

Section World.
Context {H : Type} `{Registry.Healthcheck H}.

(** A [Healthcheck] in the map, or handed to [AddCheck], is a pointer to a
    probe. *)
Definition Ptr : Type := nat.

(** The state a call of the component runs in: the probes behind their
    pointers, the component's map and channel, and whether its lock is
    write-locked. A probe reached through two pointers that are equal is one
    probe. *)
Record World : Type := mkWorld {
  objects : Ptr -> H;
  Healthchecks : gmap string Ptr;
  ChanResult : Registry.Chan;
  locked : bool
}.

Definition with_objects (o : Ptr -> H) (w : World) : World :=
  {| objects := o; Healthchecks := Healthchecks w;
     ChanResult := ChanResult w; locked := locked w |}.

Definition with_Healthchecks (m : gmap string Ptr) (w : World) : World :=
  {| objects := objects w; Healthchecks := m;
     ChanResult := ChanResult w; locked := locked w |}.

Definition with_locked (held : bool) (w : World) : World :=
  {| objects := objects w; Healthchecks := Healthchecks w;
     ChanResult := ChanResult w; locked := held |}.

(** A method called through the pointer [p]: the probe behind [p] is
    afterwards as the method left it. *)
Definition call (method : H -> error * H) (p : Ptr) (w : World)
    : error * World :=
  let '(err, after) := method (objects w p) in
  (err, with_objects (<[p := after]> (objects w)) w).

(** [p.Name()]. *)
Definition Name (p : Ptr) (w : World) : string :=
  Registry.HName (objects w p).

(** [removeCheck], called with the lock held. *)
Definition removeCheck (identifier : string) (w : World) : error * World :=
  match Healthchecks w !! identifier with
  | Some existingCheck =>
      let '(err, w1) := call Registry.Stop existingCheck w in
      match err with
      | Some _ =>
          (errors_Wrap err
             ("Fail to stop healthcheck " +:+ Name existingCheck w1), w1)
      | None =>
          (None, with_Healthchecks (delete identifier (Healthchecks w1)) w1)
      end
  | None => (None, w)
  end.

(** [AddCheck]. Besides what it returns and the state it leaves, the call
    gives the states it went through, one after each statement: the state it
    began in, then after [Initialize], [Lock], [removeCheck], [Start], the
    write to the map, and the deferred [Unlock]. A call that finds the lock
    held waits at [Lock]. *)
Definition AddCheck (healthcheck : Ptr) (w : World)
    : Return * World * list World :=
  let '(err, w0) := call Registry.Initialize healthcheck w in
  match err with
  | Some _ =>
      (Returns (errors_Wrap err
                  ("Fail to initialize healthcheck " +:+ Name healthcheck w0)),
       w0, [w; w0])
  | None =>
      if locked w0 then (Waits, w0, [w; w0])
      else
        let w1 := with_locked true w0 in
        let '(err, w2) := removeCheck (Name healthcheck w1) w1 in
        match err with
        | Some _ =>
            (Returns (errors_Wrap err
                        ("Fail to stop existing healthcheck "
                         +:+ Name healthcheck w2)),
             with_locked false w2,
             [w; w0; w1; w2; with_locked false w2])
        | None =>
            let '(err, w3) :=
              call (Registry.Start (ChanResult w2)) healthcheck w2 in
            match err with
            | Some _ =>
                (Returns (errors_Wrap err
                            ("Fail to start healthcheck "
                             +:+ Name healthcheck w3)),
                 with_locked false w3,
                 [w; w0; w1; w2; w3; with_locked false w3])
            | None =>
                let w4 :=
                  with_Healthchecks
                    (<[Name healthcheck w3 := healthcheck]> (Healthchecks w3))
                    w3 in
                (Returns None, with_locked false w4,
                 [w; w0; w1; w2; w3; w4; with_locked false w4])
            end
        end
  end.

(** The map is keyed by the names of the probes it points to. *)
Definition keyed (w : World) : Prop :=
  forall k p, Healthchecks w !! k = Some p -> Name p w = k.

(** The component of the value model that a state stands for: each name with
    the probe its pointer leads to. *)
Definition component (w : World) : Registry.Component H :=
  {| Registry.Healthchecks := objects w <$> Healthchecks w;
     Registry.ChanResult := ChanResult w |}.

End World.

Arguments World H : clear implicits.

(** The running probe ["web"] behind pointer 0, resident; behind every other
    pointer a probe ["web"] that was never started. *)
Definition one_probe : World Registry.Mock :=
  {| objects p :=
       match p with
       | O => (Registry.Start 0%nat (Registry.good "web")).2
       | S _ => Registry.good "web"
       end;
     Healthchecks := {[ "web" := 0%nat ]};
     ChanResult := 0%nat;
     locked := false |}.

End Pointers.

(** ** dns.go: the probe and its driver *)
Module Dns.

(** A [time.Ticker]: whether the runtime still feeds it, and whether a tick
    waits in its channel [C] (capacity one; a tick that finds it full is
    dropped). *)
Record Ticker : Type := mkTicker {
  period : Duration;
  active : bool;
  C : bool
}.

(** A [tomb.Tomb] whose goroutines end with [nil] and which is killed with
    [nil]: [dying] is closed by the first [Kill], [dead] when the last
    goroutine started through [Go] has returned. *)
Record Tomb : Type := mkTomb {
  dying : bool;
  dead : bool
}.

(** [DNSHealthcheck] (the logger is left out). [Tick] is a pointer, [nil]
    until [Start]; [t] is a value, usable from the start. *)
Record DNSHealthcheck : Type := mkProbe {
  ChanResult : option Registry.Chan;
  Config : DnsConfig.DNSHealthcheckConfiguration;
  URL : string;
  Tick : option Ticker;
  t : Tomb
}.

(** [Name]. *)
#[global] Instance DNS_Named : Registry.Named DNSHealthcheck :=
  fun h => DnsConfig.Name (Config h).

(** [NewDNSHealthcheck]. *)
Definition NewDNSHealthcheck (config : DnsConfig.DNSHealthcheckConfiguration)
    : DNSHealthcheck :=
  {| ChanResult := None; Config := config; URL := ""; Tick := None;
     t := {| dying := false; dead := false |} |}.

(** [Initialize]. *)
Definition Initialize (h : DNSHealthcheck) : error * DNSHealthcheck := (None, h).

(** [OneOff]. *)
Definition OneOff (h : DNSHealthcheck) : bool := DnsConfig.OneOff (Config h).

(** [Execute], with [lookup] the error of [net.LookupIP] on the domain. No
    context and no timeout are involved. *)
Definition Execute (h : DNSHealthcheck) (lookup : error) : error :=
  errors_Wrap lookup "Fail to lookup IP for domain".

(** Where a goroutine started by [Start] stands: at the [select], inside the
    send of a Result on [h.ChanResult], or returned. *)
Inductive Driver : Type :=
| AtSelect
| AtSend (result : Registry.Result)
| Returned.

Definition is_Returned (d : Driver) : bool :=
  match d with Returned => true | _ => false end.

(** A probe with the goroutines its tomb tracks and the Results the channel
    has taken so far. *)
Record World : Type := mkWorld {
  probe : DNSHealthcheck;
  drivers : list Driver;
  sink : list Registry.Result
}.

(** How a call ends: it returns, it panics, or it is parked in [t.Wait()]
    until the tomb is dead. *)
Inductive Outcome (A : Type) : Type :=
| Returns (err : error) (a : A)
| Panics (why : string)
| Waits (a : A).
Arguments Returns {A} err a.
Arguments Panics {A} why.
Arguments Waits {A} a.

(** [Start]. [time.NewTicker] panics on an interval that is not positive,
    [t.Go] on a tomb that is dead. *)
Definition Start (chanResult : Registry.Chan) (w : World) : Outcome World :=
  let h := probe w in
  if DnsConfig.Interval (Config h) <=? 0 then
    Panics "non-positive interval for NewTicker"
  else if dead (t h) then
    Panics "tomb.Go called after all goroutines terminated"
  else
    Returns None
      {| probe :=
           {| ChanResult := Some chanResult; Config := Config h; URL := URL h;
              Tick := Some {| period := DnsConfig.Interval (Config h);
                              active := true; C := false |};
              t := t h |};
         drivers := drivers w ++ [AtSelect];
         sink := sink w |}.

(** [Stop] up to [t.Wait()]: [h.Tick.Stop()] dereferences [h.Tick],
    [t.Kill(nil)] closes [dying], and [t.Wait()] returns once [dead] is
    closed. *)
Definition Stop (h : DNSHealthcheck) : Outcome DNSHealthcheck :=
  match Tick h with
  | None => Panics "invalid memory address or nil pointer dereference"
  | Some tick =>
      let stopped :=
        {| ChanResult := ChanResult h; Config := Config h; URL := URL h;
           Tick := Some {| period := period tick; active := false;
                           C := C tick |};
           t := {| dying := true; dead := dead (t h) |} |} in
      if dead (t h) then Returns None stopped else Waits stopped
  end.

(** What can happen next around the probe: the runtime puts a tick in the
    ticker's channel; goroutine [i] takes the tick case of its [select], runs
    [Execute] and [NewResult] and reaches the send; goroutine [i] takes the
    dying case and returns; the channel takes the Result goroutine [i] is
    sending. *)
Inductive Step : Type :=
| TimerFires
| SelectTick (i : nat) (lookup : error) (now : Registry.Time)
| SelectDying (i : nat)
| SinkAccepts (i : nat).

Definition with_Tick (h : DNSHealthcheck) (tick : Ticker) : DNSHealthcheck :=
  {| ChanResult := ChanResult h; Config := Config h; URL := URL h;
     Tick := Some tick; t := t h |}.

Definition with_t (h : DNSHealthcheck) (tomb : Tomb) : DNSHealthcheck :=
  {| ChanResult := ChanResult h; Config := Config h; URL := URL h;
     Tick := Tick h; t := tomb |}.

(** One step of the loop started by [Start]; [None] when the step is not
    enabled. The send [h.ChanResult <- result] is a plain send: the only way
    out of it is that the channel takes the Result. *)
Definition step (s : Step) (w : World) : option World :=
  match s with
  | TimerFires =>
      match Tick (probe w) with
      | Some tick =>
          if active tick then
            Some {| probe := with_Tick (probe w)
                               {| period := period tick; active := true;
                                  C := true |};
                    drivers := drivers w; sink := sink w |}
          else None
      | None => None
      end
  | SelectTick i lookup now =>
      match drivers w !! i, Tick (probe w) with
      | Some AtSelect, Some tick =>
          if C tick then
            Some {| probe := with_Tick (probe w)
                               {| period := period tick; active := active tick;
                                  C := false |};
                    drivers :=
                      <[i := AtSend (Registry.NewResult (probe w)
                                       (Execute (probe w) lookup) now)]>
                        (drivers w);
                    sink := sink w |}
          else None
      | _, _ => None
      end
  | SelectDying i =>
      match drivers w !! i with
      | Some AtSelect =>
          if dying (t (probe w)) then
            Some {| probe :=
                      with_t (probe w)
                        {| dying := true;
                           dead := forallb is_Returned
                                     (<[i := Returned]> (drivers w)) |};
                    drivers := <[i := Returned]> (drivers w);
                    sink := sink w |}
          else None
      | _ => None
      end
  | SinkAccepts i =>
      match drivers w !! i with
      | Some (AtSend result) =>
          Some {| probe := probe w;
                  drivers := <[i := AtSelect]> (drivers w);
                  sink := sink w ++ [result] |}
      | _ => None
      end
  end.

(** A run of steps, stopping at the first that is not enabled. *)
Fixpoint run (schedule : list Step) (w : World) : option World :=
  match schedule with
  | [] => Some w
  | s :: rest =>
      match step s w with
      | Some w' => run rest w'
      | None => None
      end
  end.

Definition with_probe (w : World) (h : DNSHealthcheck) : World :=
  {| probe := h; drivers := drivers w; sink := sink w |}.

(** A whole call of [Stop]: [schedule] is what the goroutines do while the
    caller is parked in [t.Wait()]. *)
Definition StopCall (schedule : list Step) (w : World) : Outcome World :=
  match Stop (probe w) with
  | Panics why => Panics why
  | Returns err h => Returns err (with_probe w h)
  | Waits h =>
      match run schedule (with_probe w h) with
      | Some w' =>
          if dead (t (probe w')) then Returns None w' else Waits w'
      | None => Waits (with_probe w h)
      end
  end.

(** A probe as the handlers build it, before any [Start]. *)
Definition fresh (config : DnsConfig.DNSHealthcheckConfiguration) : World :=
  {| probe := NewDNSHealthcheck config; drivers := []; sink := [] |}.

(** The worlds of a probe that was started once: what [Start] makes of a
    fresh probe, and what steps and calls of [Stop] make of that. *)
Inductive started : World -> Prop :=
| started_Start config chanResult w :
    Start chanResult (fresh config) = Returns None w -> started w
| started_step s w w' :
    started w -> step s w = Some w' -> started w'
| started_Stop_waits w h :
    started w -> Stop (probe w) = Waits h -> started (with_probe w h)
| started_Stop_returns w err h :
    started w -> Stop (probe w) = Returns err h -> started (with_probe w h).

(** A probe as [Stop] leaves it: the ticker stopped, the tomb dying. *)
Definition stop_requested (h : DNSHealthcheck) : Prop :=
  exists p c, Tick h = Some {| period := p; active := false; C := c |}
              /\ dying (t h) = true.

(** What holds of a probe started once: its ticker is there, one goroutine
    is tracked, and the tomb is dead exactly when that goroutine returned. *)
Definition started_once (w : World) : Prop :=
  is_Some (Tick (probe w))
  /\ exists d, drivers w = [d] /\ dead (t (probe w)) = is_Returned d.

(** A periodic probe of localhost, every five seconds. *)
Definition every_5s : DnsConfig.DNSHealthcheckConfiguration :=
  DnsConfig.mkConfig "d1" "" "localhost" (5 * Second) false.

(** That probe once [Start] has returned: the ticker runs, the goroutine
    waits at its [select]. *)
Definition running_world : World :=
  {| probe := {| ChanResult := Some 0%nat; Config := every_5s; URL := "";
                 Tick := Some {| period := 5 * Second; active := true;
                                 C := false |};
                 t := {| dying := false; dead := false |} |};
     drivers := [AtSelect];
     sink := [] |}.

(** The Result of a lookup that failed at time 100. *)
Definition failed_lookup : Registry.Result :=
  Registry.mkResult "d1" false 100
    "Fail to lookup IP for domain: no such host".

(** The same probe later: a tick came, the lookup failed, the goroutine is
    inside the send of the Result and nothing receives; then [Stop] was
    called and is parked in [t.Wait()]. *)
Definition blocked_world : World :=
  {| probe := {| ChanResult := Some 0%nat; Config := every_5s; URL := "";
                 Tick := Some {| period := 5 * Second; active := false;
                                 C := false |};
                 t := {| dying := true; dead := false |} |};
     drivers := [AtSend failed_lookup];
     sink := [] |}.

End Dns.

(** ** The HTTP handlers *)
Module Http.

(** *** crypto/subtle, as the Basic Auth callback uses it *)

Definition byte_xor (a b : ascii) : ascii :=
  match a, b with
  | Ascii a0 a1 a2 a3 a4 a5 a6 a7, Ascii b0 b1 b2 b3 b4 b5 b6 b7 =>
      Ascii (xorb a0 b0) (xorb a1 b1) (xorb a2 b2) (xorb a3 b3)
        (xorb a4 b4) (xorb a5 b5) (xorb a6 b6) (xorb a7 b7)
  end.

Definition byte_or (a b : ascii) : ascii :=
  match a, b with
  | Ascii a0 a1 a2 a3 a4 a5 a6 a7, Ascii b0 b1 b2 b3 b4 b5 b6 b7 =>
      Ascii (a0 || b0) (a1 || b1) (a2 || b2) (a3 || b3)
        (a4 || b4) (a5 || b5) (a6 || b6) (a7 || b7)
  end.

(** [subtle.ConstantTimeByteEq]: [int((uint32(x^y) - 1) >> 31)]. *)
Definition ConstantTimeByteEq (x y : ascii) : Z :=
  Z.shiftr ((Z.of_N (N_of_ascii (byte_xor x y)) - 1) mod 2 ^ 32) 31.

(** The loop [v |= x[i] ^ y[i]] over two byte strings of one length. *)
Fixpoint or_of_xors (v : ascii) (x y : string) : ascii :=
  match x, y with
  | String a x', String b y' => or_of_xors (byte_or v (byte_xor a b)) x' y'
  | _, _ => v
  end.

(** [subtle.ConstantTimeCompare] on the bytes of two strings. *)
Definition ConstantTimeCompare (x y : string) : Z :=
  if (String.length x =? String.length y)%nat then
    ConstantTimeByteEq (or_of_xors Ascii.zero x y) Ascii.zero
  else 0.

(** [c.Config.BasicAuth]. *)
Record BasicAuth : Type := mkBasicAuth {
  Username : string;
  Password : string
}.

(** *** What the handlers need of a probe besides the component's
    interface: [Base().OneOff], [SetSource] and the source it set. *)
Class Described (H : Type) : Type := {
  HOneOff : H -> bool;
  SetSource : string -> H -> H;
  HSource : H -> string
}.

#[global] Instance Mock_Described : Described Registry.Mock := {|
  HOneOff := Registry.one_off;
  SetSource s m :=
    {| Registry.mock_name := Registry.mock_name m;
       Registry.init_err := Registry.init_err m;
       Registry.start_err := Registry.start_err m;
       Registry.stop_err := Registry.stop_err m;
       Registry.exec_err := Registry.exec_err m;
       Registry.one_off := Registry.one_off m;
       Registry.source := s;
       Registry.running := Registry.running m;
       Registry.calls := Registry.calls m |};
  HSource := Registry.source
|}.

(** [healthcheck.SourceAPI]. *)
Definition SourceAPI : string := "api".

(** Modelled from the spec: the Result with a duration and a source, and the
    three-argument [NewResult] that the first version of [oneOff] calls, are
    not in the sources (the component's [NewResult] there has neither). The
    specification gives the Result as (name, success = err==nil, now,
    duration, source, message = the error's text or "success"). The duration
    is [duration.Seconds()], here the exact quotient. *)
Record Result : Type := mkResult {
  Name : string;
  Success : bool;
  Timestamp : Registry.Time;
  Duration : Q;
  Source : string;
  message : string
}.

Definition Seconds (d : Z) : Q := Qmake d 1000000000.

(** What a handler answers: a JSON body with a status, or (second version)
    an error handed to the server's error handler. *)
Inductive Body : Type :=
| Message (msg : string)
| Messages (msgs : list string)
| ResultBody (result : Result).

Inductive Response : Type :=
| JSON (status : Z) (body : Body)
| InternalError (msg : string).

Section Shared.
Context {H : Type} `{Registry.Healthcheck H} `{Described H}.

(** Modelled from the spec: [NewResult] with a duration, see [Result]. *)
Definition NewResult (healthcheck : H) (duration : Q) (err : error)
    (now : Registry.Time) : Result :=
  {| Name := Registry.HName healthcheck;
     Success := negb (is_err err);
     Timestamp := now;
     Duration := duration;
     Source := HSource healthcheck;
     message := default "success" err |}.

Definition with_Source (r : Result) (src : string) : Result :=
  {| Name := Name r; Success := Success r; Timestamp := Timestamp r;
     Duration := Duration r; Source := src; message := message r |}.

(** [addCheck], the same in both versions. *)
Definition addCheck (c : Registry.Component H) (check : H)
    : error * Registry.Component H * list Registry.Event :=
  Registry.AddCheck (SetSource SourceAPI check) c.

End Shared.

(** *** First version of the handlers (the file that imports
    [mcorbin/cabourotte]) *)
Module V1.

Section Handlers.
Context {H : Type} `{Registry.Healthcheck H} `{Described H}.

(** [oneOff]: [elapsed] is [time.Since(start)] around [Execute], [now] the
    clock when the Result is built. The component [c] is in reach and is
    handed back as it was. *)
Definition oneOff (c : Registry.Component H) (check : H)
    (elapsed : Z) (now : Registry.Time)
    : Response * Registry.Component H * H * list Registry.Event :=
  let '(err, initialized) := Registry.Initialize check in
  match err with
  | Some e =>
      (JSON 500
         (Message ("Fail to initialize one off healthcheck "
                   +:+ Registry.HName check +:+ ": " +:+ e)),
       c, initialized, [Registry.EvInitialize (Registry.HName check)])
  | None =>
      let '(err, executed) := Registry.Execute initialized in
      (JSON 201
         (ResultBody
            (with_Source (NewResult executed (Seconds elapsed) err now)
               "one-off")),
       c, executed,
       [Registry.EvInitialize (Registry.HName check);
        Registry.EvExecute (Registry.HName initialized)])
  end.

(** [handleCheck]. *)
Definition handleCheck (c : Registry.Component H) (check : H)
    (elapsed : Z) (now : Registry.Time)
    : Response * Registry.Component H * list Registry.Event :=
  if HOneOff check then
    let '(response, c', _, evs) := oneOff c check elapsed now in
    (response, c', evs)
  else
    let '(err, c', evs) := addCheck c check in
    match err with
    | Some e =>
        (JSON 500
           (Message ("Fail to start the healthcheck "
                     +:+ Registry.HName check +:+ ": " +:+ e)),
         c', evs)
    | None => (JSON 201 (Message "Healthcheck successfully added"), c', evs)
    end.

End Handlers.

(** The Basic Auth callback, with the line it logs. *)
Definition basicAuth (config : BasicAuth) (username password : string)
    : bool * error * list string :=
  if (ConstantTimeCompare username (Username config) =? 1)
     && (ConstantTimeCompare password (Password config) =? 1)
  then (true, None, [])
  else (false, None, ["Invalid Basic Auth credentials"]).

End V1.

(** *** Second version of the handlers (the file that imports
    [appclacks/cabourotte]) *)
Module V2.

Section Handlers.
Context {H : Type} `{Registry.Healthcheck H} `{Described H}.

(** [oneOff]: no clock is read and no Result is built. *)
Definition oneOff (c : Registry.Component H) (check : H)
    : Response * Registry.Component H * H * list Registry.Event :=
  let '(err, initialized) := Registry.Initialize check in
  match err with
  | Some e =>
      (InternalError ("Fail to initialize one off healthcheck "
                      +:+ Registry.HName check +:+ ": " +:+ e),
       c, initialized, [Registry.EvInitialize (Registry.HName check)])
  | None =>
      let '(err, executed) := Registry.Execute initialized in
      match err with
      | Some e =>
          (InternalError ("Execution of one off healthcheck "
                          +:+ Registry.HName check +:+ " failed: " +:+ e),
           c, executed,
           [Registry.EvInitialize (Registry.HName check);
            Registry.EvExecute (Registry.HName initialized)])
      | None =>
          (JSON 201
             (Messages ["One-off healthcheck " +:+ Registry.HName check
                        +:+ " successfully executed"]),
           c, executed,
           [Registry.EvInitialize (Registry.HName check);
            Registry.EvExecute (Registry.HName initialized)])
      end
  end.

(** [handleCheck]. *)
Definition handleCheck (c : Registry.Component H) (check : H)
    : Response * Registry.Component H * list Registry.Event :=
  if HOneOff check then
    let '(response, c', _, evs) := oneOff c check in
    (response, c', evs)
  else
    let '(err, c', evs) := addCheck c check in
    match err with
    | Some e =>
        (InternalError ("Fail to start the healthcheck "
                        +:+ Registry.HName check +:+ ": " +:+ e),
         c', evs)
    | None => (JSON 201 (Messages ["Healthcheck successfully added"]), c', evs)
    end.

End Handlers.

(** The Basic Auth callback, with the line it logs. *)
Definition basicAuth (config : BasicAuth) (username password : string)
    : bool * error * list string :=
  if (ConstantTimeCompare username (Username config) =? 1)
     && (ConstantTimeCompare password (Password config) =? 1)
  then (true, None, [])
  else (true, None, ["Invalid Basic Auth credentials"]).

End V2.



End Http.

(** ** Runs of the component *)
Module Runs.

(** The discipline a trace of the component is checked against, with [held]
    telling whether the writer lock is held: the lock is taken only when
    free and released only when held; a probe is stopped or started and the
    map is written only under the lock; [Initialize] and [Execute] run
    outside of it; at the end the lock is free. *)
Fixpoint lock_respected (held : bool) (evs : list Registry.Event) : bool :=
  match evs with
  | [] => negb held
  | Registry.EvLock :: rest => negb held && lock_respected true rest
  | Registry.EvUnlock :: rest => held && lock_respected false rest
  | Registry.EvStop _ :: rest
  | Registry.EvStart _ :: rest
  | Registry.EvDelete _ :: rest
  | Registry.EvInsert _ :: rest => held && lock_respected held rest
  | Registry.EvInitialize _ :: rest
  | Registry.EvExecute _ :: rest => negb held && lock_respected held rest
  end.

Section Reachable.
Context {H : Type} `{Registry.Healthcheck H}.

(** The components a program can hold: what [New] returns, and what
    [AddCheck], [RemoveCheck] and [Stop] make of such a component, whatever
    they return. *)
Inductive reachable : Registry.Component H -> Prop :=
| reachable_New chanResult : reachable (Registry.New chanResult)
| reachable_AddCheck healthcheck c :
    reachable c -> reachable (Registry.AddCheck healthcheck c).1.2
| reachable_RemoveCheck identifier c :
    reachable c -> reachable (Registry.RemoveCheck identifier c).1.2
| reachable_Stop order c :
    reachable c -> reachable (Registry.StopComponent order c).1.2.

End Reachable.

End Runs.

(** ** Runs of the DNS driver *)
Module DnsRuns.

Definition is_AtSend (d : Dns.Driver) : bool :=
  match d with Dns.AtSend _ => true | _ => false end.

(** The goroutines that are inside a send. *)
Fixpoint sending (ds : list Dns.Driver) : nat :=
  match ds with
  | [] => 0%nat
  | d :: rest => ((if is_AtSend d then 1 else 0) + sending rest)%nat
  end.

(** The Results that are under way: one for a tick waiting in the ticker's
    channel, one for each goroutine inside a send. *)
Definition in_flight (w : Dns.World) : nat :=
  ((match Dns.Tick (Dns.probe w) with
    | Some tick => if Dns.C tick then 1 else 0
    | None => 0
    end) + sending (Dns.drivers w))%nat.

(** The two shapes of a Result of the probe configured by [config]: the
    lookup succeeded, or it failed with some error [e]. *)
Definition emitted_by (config : DnsConfig.DNSHealthcheckConfiguration)
    (r : Registry.Result) : Prop :=
  Registry.Name r = DnsConfig.Name config
  /\ ((Registry.Success r = true /\ Registry.message r = "success")
      \/ (Registry.Success r = false
          /\ exists e,
               Registry.message r = "Fail to lookup IP for domain: " +:+ e)).

End DnsRuns.

(** ** tcp.go: the probe and its address *)
Module TcpProbe.

(** [TCPHealthcheck] (the logger, the ticker and the tomb are left out: no
    function of tcp.go under study reads them but [Execute], for its parent
    context). *)
Record TCPHealthcheck : Type := mkProbe {
  Config : Tcp.TCPHealthcheckConfiguration;
  URL : string
}.

(** Whether the byte [':'] occurs in [s]: [bytealg.IndexByteString(s, ':')
    >= 0]. *)
Fixpoint has_colon (s : string) : bool :=
  match s with
  | EmptyString => false
  | String a rest => Ascii.eqb a ":"%char || has_colon rest
  end.

(** [net.JoinHostPort]: a host with a colon is taken for an IPv6 literal and
    put in brackets. *)
Definition JoinHostPort (host port : string) : string :=
  if has_colon host then "[" +:+ host +:+ "]:" +:+ port
  else host +:+ ":" +:+ port.

(** [NewTCPHealthcheck]. *)
Definition NewTCPHealthcheck (config : Tcp.TCPHealthcheckConfiguration)
    : TCPHealthcheck :=
  {| Config := config; URL := "" |}.

(** [buildURL]: [fmt.Sprintf("%d", port)] is the decimal numeral. *)
Definition buildURL (h : TCPHealthcheck) : TCPHealthcheck :=
  {| Config := Config h;
     URL := JoinHostPort (Tcp.Target (Config h)) (pretty (Tcp.Port (Config h))) |}.

(** [Initialize]. *)
Definition Initialize (h : TCPHealthcheck) : error * TCPHealthcheck :=
  (None, buildURL h).

(** [Name], [Interval], [OneOff]. *)
Definition Name (h : TCPHealthcheck) : string := Tcp.Name (Config h).
Definition Interval (h : TCPHealthcheck) : Duration := Tcp.Interval (Config h).
Definition OneOff (h : TCPHealthcheck) : bool := Tcp.OneOff (Config h).

(** [Execute] on the probe: the dial goes to [h.URL]. *)
Definition Execute (h : TCPHealthcheck) (d : Tcp.Dial) : error :=
  Tcp.Execute (Config h) (URL h) d.

End TcpProbe.

(** ** The routes that remove a probe *)
Module Routes.

Section Delete.
Context {H : Type} `{Registry.Healthcheck H}.

(** The handler of [DELETE /healthcheck/:name] in the first version of the
    handlers; [name] is the path parameter. The message of the failure is
    the source's. *)
Definition DELETE_healthcheck_v1 (c : Registry.Component H) (name : string)
    : Http.Response * Registry.Component H * list Registry.Event :=
  let '(err, c', evs) := Registry.RemoveCheck name c in
  match err with
  | Some e =>
      (Http.JSON 500 (Http.Message ("Fail to start the healthcheck: " +:+ e)),
       c', evs)
  | None =>
      (Http.JSON 200
         (Http.Message ("Successfully deleted healthcheck " +:+ name)),
       c', evs)
  end.

(** The same handler in the second version. *)
Definition DELETE_healthcheck_v2 (c : Registry.Component H) (name : string)
    : Http.Response * Registry.Component H * list Registry.Event :=
  let '(err, c', evs) := Registry.RemoveCheck name c in
  match err with
  | Some e =>
      (Http.InternalError ("Fail to start the healthcheck: " +:+ e), c', evs)
  | None =>
      (Http.JSON 200
         (Http.Messages ["Successfully deleted healthcheck " +:+ name]),
       c', evs)
  end.

End Delete.

End Routes.

(* ===================================================================== *)
(** * Properties *)
(* ===================================================================== *)

(** ** Validation *)

(** C2, as the code has it. The rule of the claim, with the field each kind
    requires besides (command; target and port; domain), decides validation:
    a configuration is rejected exactly when the rule rejects it or such a
    field is empty or zero. This holds for every command configuration; for
    every TCP configuration that is not one-off or whose interval is at
    least 2s and at least the timeout; and, a DNS configuration having no
    timeout, for every DNS configuration whose interval is at least 2s, or
    at least 5ns when it is one-off, or under 5ns when it is not. Whatever
    the interval, a TCP configuration that the rule rejects is rejected, and
    so is a DNS configuration without a name or a domain. *)
Theorem validation_rejections :
  (forall c : Command.CommandHealthcheckConfiguration,
     is_err (Command.Validate c)
     = rule_rejects (Name (Command.base c)) (Command.Timeout c)
         (Interval (Command.base c)) (OneOff (Command.base c))
       || (Command.Command c =? "")%string)
  /\ (forall c : Tcp.TCPHealthcheckConfiguration,
        Tcp.OneOff c = false
        \/ (2 * Second <= Tcp.Interval c /\ Tcp.Timeout c <= Tcp.Interval c) ->
        is_err (Tcp.ValidateTCPConfig c)
        = rule_rejects (Tcp.Name c) (Tcp.Timeout c) (Tcp.Interval c)
            (Tcp.OneOff c)
          || (Tcp.Target c =? "")%string || (Tcp.Port c =? 0)%N)
  /\ (forall c : Tcp.TCPHealthcheckConfiguration,
        rule_rejects (Tcp.Name c) (Tcp.Timeout c) (Tcp.Interval c)
          (Tcp.OneOff c)
        || (Tcp.Target c =? "")%string || (Tcp.Port c =? 0)%N = true ->
        is_err (Tcp.ValidateTCPConfig c) = true)
  /\ (forall c : DnsConfig.DNSHealthcheckConfiguration,
        2 * Second <= DnsConfig.Interval c
        \/ (DnsConfig.OneOff c = true /\ 5 <= DnsConfig.Interval c)
        \/ (DnsConfig.OneOff c = false /\ DnsConfig.Interval c < 5) ->
        is_err (DnsConfig.ValidateDNSConfig c)
        = (DnsConfig.Name c =? "")%string
          || (negb (DnsConfig.OneOff c)
              && (DnsConfig.Interval c <? 2 * Second))
          || (DnsConfig.Domain c =? "")%string)
  /\ (forall c : DnsConfig.DNSHealthcheckConfiguration,
        DnsConfig.Name c = "" \/ DnsConfig.Domain c = "" ->
        is_err (DnsConfig.ValidateDNSConfig c) = true).
Proof.
  pose proof (eq_refl : Second = 1000000000) as Hsecond.
  split_and!.
  - intros [[n d i o] cmd args t]. unfold Command.Validate, rule_rejects. simpl.
    destruct (n =? "")%string, (cmd =? "")%string, (t =? 0), o,
      (i <? 2 * Second), (i <? t); reflexivity.
  - intros [n d tg p t i o]. simpl. intros Hin.
    unfold Tcp.ValidateTCPConfig, rule_rejects. simpl.
    destruct (n =? "")%string, (tg =? "")%string, (p =? 0)%N, (t =? 0),
      (Z.ltb_spec i (2 * Second)), (Z.ltb_spec i t), o;
      try reflexivity; exfalso; destruct Hin as [Hin|Hin]; (discriminate || lia).
  - intros [n d tg p t i o]. simpl.
    unfold Tcp.ValidateTCPConfig, rule_rejects. simpl.
    destruct (n =? "")%string, (tg =? "")%string, (p =? 0)%N, (t =? 0),
      (i <? 2 * Second), (i <? t), o; simpl; done.
  - intros [n d dom i o]. simpl. intros Hin.
    unfold DnsConfig.ValidateDNSConfig. simpl.
    destruct (n =? "")%string, (dom =? "")%string, (Z.ltb_spec i 5),
      (Z.ltb_spec i (2 * Second)), o;
      try reflexivity; exfalso;
      destruct Hin as [Hin|[Hin|Hin]]; (lia || (destruct Hin; (discriminate || lia))).
  - intros [n d dom i o]. simpl. unfold DnsConfig.ValidateDNSConfig. simpl.
    intros [-> | ->]; simpl;
      repeat (match goal with |- context [if ?b then _ else _] => destruct b end);
      reflexivity.
Qed.

(** A one-off TCP probe of localhost with an interval of 2s is accepted and
    one without a name is rejected, whatever its interval; a DNS probe every
    2s is accepted, and rejected when its domain is missing. *)
Lemma validation_rejections_witness :
  is_err (Tcp.ValidateTCPConfig
            (Tcp.mkConfig "t1" "" "127.0.0.1" 8080 Second (2 * Second) true))
  = false
  /\ is_err (Tcp.ValidateTCPConfig
               (Tcp.mkConfig "" "" "127.0.0.1" 8080 Second 0 true))
     = true
  /\ is_err (DnsConfig.ValidateDNSConfig
               (DnsConfig.mkConfig "d1" "" "localhost" (2 * Second) false))
     = false
  /\ is_err (DnsConfig.ValidateDNSConfig
               (DnsConfig.mkConfig "d1" "" "" Second false))
     = true.
Proof.
  destruct validation_rejections as (_ & Htcp & Htcp1 & Hdns & Hdns1).
  split_and!.
  - apply (Htcp (Tcp.mkConfig "t1" "" "127.0.0.1" 8080 Second (2 * Second) true)).
    right. vm_compute. split; discriminate.
  - apply (Htcp1 (Tcp.mkConfig "" "" "127.0.0.1" 8080 Second 0 true)).
    reflexivity.
  - apply (Hdns (DnsConfig.mkConfig "d1" "" "localhost" (2 * Second) false)).
    left. vm_compute. discriminate.
  - apply (Hdns1 (DnsConfig.mkConfig "d1" "" "" Second false)).
    right. reflexivity.
Defined.

(** C2, the claim as stated fails. A command configuration that the rule
    accepts is rejected for its empty command; a one-off TCP configuration
    is rejected for its interval although the rule ignores the cadence of a
    one-off; a DNS configuration with an interval of one second is accepted
    although the rule rejects every interval under two seconds; a one-off
    DNS configuration is rejected for its interval. *)
Lemma validation_departs_from_rule :
  (rule_rejects "c1" Second (2 * Second) false = false
   /\ Command.Validate
        (Command.mkConfig (mkBase "c1" "" (2 * Second) false) "" [] Second)
      = Some "The healthcheck command is missing")
  /\ (rule_rejects "t1" Second 0 true = false
      /\ Tcp.ValidateTCPConfig
           (Tcp.mkConfig "t1" "" "127.0.0.1" 8080 Second 0 true)
         = Some "The healthcheck interval should be greater than 2 second")
  /\ (rule_rejects "d1" Second Second false = true
      /\ DnsConfig.ValidateDNSConfig
           (DnsConfig.mkConfig "d1" "" "localhost" Second false)
         = None)
  /\ (rule_rejects "d1" Second 0 true = false
      /\ DnsConfig.ValidateDNSConfig
           (DnsConfig.mkConfig "d1" "" "localhost" 0 true)
         = Some "The healthcheck interval should be greater than 5").
Proof. split_and!; reflexivity. Qed.

(** ** The component over pointers *)

Section PointerFacts.
Import Registry Pointers.
Context {H : Type} `{Healthcheck H}.

Implicit Types (p q : Ptr) (w : World H).

Lemma call_spec (method : H -> error * H) p w :
  (call method p w).1 = (method (objects w p)).1
  /\ objects (call method p w).2 p = (method (objects w p)).2
  /\ (forall q, q <> p -> objects (call method p w).2 q = objects w q)
  /\ Pointers.Healthchecks (call method p w).2 = Pointers.Healthchecks w
  /\ Pointers.ChanResult (call method p w).2 = Pointers.ChanResult w
  /\ locked (call method p w).2 = locked w.
Proof.
  unfold call. destruct (method (objects w p)) as [err after]. simpl.
  split_and!; try done.
  - apply fn_lookup_insert.
  - intros q Hq. by apply fn_lookup_insert_ne.
Qed.

Lemma Name_call (method : H -> error * H) p q w :
  (forall h, HName (method h).2 = HName h) ->
  Pointers.Name q (call method p w).2 = Pointers.Name q w.
Proof.
  intros Hlaw. unfold Pointers.Name.
  destruct (call_spec method p w) as (_ & Hp & Hq & _).
  destruct (decide (q = p)) as [->|Hne].
  - by rewrite Hp, Hlaw.
  - by rewrite Hq.
Qed.

Lemma removeCheck_returns_nil identifier w w2 :
  Pointers.removeCheck identifier w = (None, w2) ->
  Pointers.Healthchecks w2 = delete identifier (Pointers.Healthchecks w)
  /\ Pointers.ChanResult w2 = Pointers.ChanResult w
  /\ locked w2 = locked w
  /\ (forall q, Pointers.Name q w2 = Pointers.Name q w)
  /\ (forall old,
        Pointers.Healthchecks w !! identifier = Some old ->
        (Stop (objects w old)).1 = None
        /\ objects w2 old = (Stop (objects w old)).2)
  /\ (forall q, Pointers.Healthchecks w !! identifier <> Some q ->
        objects w2 q = objects w q).
Proof.
  unfold Pointers.removeCheck.
  destruct (Pointers.Healthchecks w !! identifier) as [old|] eqn:Hold.
  - destruct (call_spec Stop old w) as (Herr & Hat & Hother & Hmap & Hchan & Hlock).
    pose proof (fun q => Name_call Stop old q w HName_Stop) as Hnames.
    destruct (call Stop old w) as [[e|] w1]; simpl in *; [discriminate|].
    intros [= <-]. simpl. rewrite Hmap. split_and!; try done.
    + intros ? [= <-]. done.
    + intros q Hq. apply Hother. congruence.
  - intros [= <-]. rewrite delete_id by done. split_and!; done.
Qed.

(** The lock over a call of [AddCheck] begun with the lock free, whatever
    the call returns: it does not wait, it leaves the lock free, and a state
    of the call in which the lock is free has the map the call began with,
    or is the state the call leaves. *)
Lemma AddCheck_holds_lock p w :
  locked w = false ->
  (Pointers.AddCheck p w).1.1 <> Waits
  /\ locked (Pointers.AddCheck p w).1.2 = false
  /\ (forall s,
        s ∈ (Pointers.AddCheck p w).2 -> locked s = false ->
        Pointers.Healthchecks s = Pointers.Healthchecks w
        \/ s = (Pointers.AddCheck p w).1.2).
Proof.
  intros Hfree. unfold Pointers.AddCheck.
  destruct (call_spec Initialize p w) as (_ & _ & _ & Hmap0 & _ & Hlock0).
  destruct (call Initialize p w) as [[e|] w0]; simpl in *.
  { split_and!; [done|congruence|].
    intros s [->|[->|[]%elem_of_nil]%elem_of_cons]%elem_of_cons _; by left. }
  rewrite Hlock0, Hfree.
  set (w1 := with_locked true w0).
  destruct (Pointers.removeCheck (Pointers.Name p w1) w1) as [[e|] w2] eqn:Hrm.
  { simpl. split_and!; [done..|]. intros s Hs Hfree_s.
    repeat (apply elem_of_cons in Hs as [->|Hs]).
    - by left.
    - by left.
    - discriminate.
    - revert Hfree_s. unfold Pointers.removeCheck in Hrm.
      destruct (Pointers.Healthchecks w1 !! Pointers.Name p w1) as [old|];
        [|discriminate].
      destruct (call_spec Stop old w1) as (_ & _ & _ & _ & _ & Hlock1).
      destruct (call Stop old w1) as [[e1|] w1']; simplify_eq/=. congruence.
    - by right.
    - by apply elem_of_nil in Hs. }
  apply removeCheck_returns_nil in Hrm as (_ & _ & Hlock2 & _).
  destruct (call_spec (Start (Pointers.ChanResult w2)) p w2)
    as (_ & _ & _ & _ & _ & Hlock3).
  destruct (call (Start (Pointers.ChanResult w2)) p w2) as [[e|] w3];
    simpl in *.
  - split_and!; [done..|]. intros s Hs Hfree_s.
    repeat (apply elem_of_cons in Hs as [->|Hs]);
      try (by left); try (by right); try discriminate; try congruence.
    by apply elem_of_nil in Hs.
  - split_and!; [done..|]. intros s Hs Hfree_s.
    repeat (apply elem_of_cons in Hs as [->|Hs]);
      try (by left); try (by right); try discriminate; try congruence.
    + simpl in Hfree_s. congruence.
    + by apply elem_of_nil in Hs.
Qed.

(** C1. A call of [AddCheck] begun with the lock free on a map keyed by
    name does not wait and leaves the lock free; a state of the call in
    which the lock is free has the map the call began with, or is the state
    the call leaves. When the call returns [nil] it went through seven
    states. [Initialize] ran on the new probe before the lock was taken,
    and the lock is held in every state from there to the last. Under the
    lock, a probe resident under the name was stopped, its [Stop] returning
    [nil], and the name was unbound: it is bound in no state from the
    removal to the write. Then the new probe was started, its [Start]
    returning [nil], and the name bound to it. In the state the call leaves
    the name leads to that probe as [Start] left it, no other name leads to
    a probe so named, the other names lead where they did, a prior probe
    that is not the new one is as its [Stop] left it, and the probes not
    concerned are untouched. *)
Theorem AddCheck_swaps_under_lock p w :
  locked w = false ->
  Pointers.keyed w ->
  (Pointers.AddCheck p w).1.1 <> Waits
  /\ locked (Pointers.AddCheck p w).1.2 = false
  /\ (forall s,
        s ∈ (Pointers.AddCheck p w).2 -> locked s = false ->
        Pointers.Healthchecks s = Pointers.Healthchecks w
        \/ s = (Pointers.AddCheck p w).1.2)
  /\ (forall w' history,
        Pointers.AddCheck p w = (Returns None, w', history) ->
        exists w0 w1 w2 w3 w4,
          history = [w; w0; w1; w2; w3; w4; w']
          /\ locked <$> history = [false; false; true; true; true; true; false]
          /\ (Initialize (objects w p)).1 = None
          /\ objects w0 p = (Initialize (objects w p)).2
          /\ Pointers.Healthchecks w0 = Pointers.Healthchecks w
          /\ Pointers.Healthchecks w1 = Pointers.Healthchecks w
          /\ (forall old,
                Pointers.Healthchecks w !! Pointers.Name p w = Some old ->
                (Stop (objects w1 old)).1 = None
                /\ objects w2 old = (Stop (objects w1 old)).2)
          /\ Pointers.Healthchecks w2
             = delete (Pointers.Name p w) (Pointers.Healthchecks w)
          /\ Pointers.Healthchecks w2 !! Pointers.Name p w = None
          /\ (Start (Pointers.ChanResult w) (objects w2 p)).1 = None
          /\ objects w3 p = (Start (Pointers.ChanResult w) (objects w2 p)).2
          /\ Pointers.Healthchecks w3 !! Pointers.Name p w = None
          /\ Pointers.Healthchecks w4
             = <[Pointers.Name p w := p]>
                 (delete (Pointers.Name p w) (Pointers.Healthchecks w))
          /\ Pointers.Healthchecks w' = Pointers.Healthchecks w4
          /\ Pointers.Healthchecks w' !! Pointers.Name p w = Some p
          /\ objects w' p = (Start (Pointers.ChanResult w) (objects w2 p)).2
          /\ (forall k q,
                Pointers.Healthchecks w' !! k = Some q ->
                Pointers.Name q w' = Pointers.Name p w ->
                k = Pointers.Name p w /\ q = p)
          /\ (forall k, k <> Pointers.Name p w ->
                Pointers.Healthchecks w' !! k = Pointers.Healthchecks w !! k)
          /\ (forall old,
                Pointers.Healthchecks w !! Pointers.Name p w = Some old ->
                old <> p ->
                objects w' old = (Stop (objects w old)).2)
          /\ (forall q,
                q <> p ->
                Pointers.Healthchecks w !! Pointers.Name p w <> Some q ->
                objects w' q = objects w q)
          /\ Pointers.keyed w').
Proof.
  intros Hfree Hkeyed.
  destruct (AddCheck_holds_lock p w Hfree) as (Hreturns & Hunlocked & Hstates).
  split_and!; [done..|]. clear Hreturns Hunlocked Hstates.
  intros w' history. unfold Pointers.AddCheck.
  destruct (call_spec Initialize p w)
    as (Herr0 & Hat0 & Hother0 & Hmap0 & Hchan0 & Hlock0).
  pose proof (fun q => Name_call Initialize p q w HName_Initialize) as Hnames0.
  destruct (call Initialize p w) as [[e|] w0]; simpl in *; [discriminate|].
  rewrite Hlock0, Hfree.
  set (w1 := with_locked true w0).
  destruct (Pointers.removeCheck (Pointers.Name p w1) w1) as [[e|] w2] eqn:Hrm;
    [discriminate|].
  apply removeCheck_returns_nil in Hrm
    as (Hmap2 & Hchan2 & Hlock2 & Hnames2 & Hold2 & Hother2).
  change (Pointers.Name p w1) with (Pointers.Name p w0) in *.
  change (Pointers.Healthchecks w1) with (Pointers.Healthchecks w0) in *.
  rewrite Hnames0, Hmap0 in *.
  destruct (call_spec (Start (Pointers.ChanResult w2)) p w2)
    as (Herr3 & Hat3 & Hother3 & Hmap3 & Hchan3 & Hlock3).
  pose proof (fun q => Name_call (Start (Pointers.ChanResult w2)) p q w2
                         (HName_Start _)) as Hnames3.
  destruct (call (Start (Pointers.ChanResult w2)) p w2) as [[e|] w3];
    simpl in *; [discriminate|].
  intros Heq. injection Heq as <- <-.
  assert (Hn3 : forall q, Pointers.Name q w3 = Pointers.Name q w).
  { intros q. rewrite Hnames3, Hnames2. apply Hnames0. }
  rewrite Hn3, Hmap3, Hmap2.
  rewrite Hchan2 in *.
  change (Pointers.ChanResult w1) with (Pointers.ChanResult w0) in *.
  rewrite Hchan0 in *.
  assert (Hkeyed' : forall k q,
             <[Pointers.Name p w := p]>
               (delete (Pointers.Name p w) (Pointers.Healthchecks w)) !! k
             = Some q ->
             Pointers.Name q w = k).
  { intros k q. rewrite lookup_insert. case_decide.
    - intros [= <-]. done.
    - rewrite lookup_delete_ne by done. apply Hkeyed. }
  eexists w0, w1, w2, w3, _. split_and!; try done.
  - simpl. by rewrite Hlock3, Hlock2, Hlock0, Hfree.
  - rewrite Hmap2. apply lookup_delete_eq.
  - rewrite Hmap3, Hmap2. apply lookup_delete_eq.
  - simpl. apply lookup_insert_eq.
  - intros k q Hq Hname. simpl in Hq. apply Hkeyed' in Hq as Hk.
    change (Pointers.Name q w3 = Pointers.Name p w) in Hname.
    rewrite Hn3 in Hname. assert (k = Pointers.Name p w) as -> by congruence.
    rewrite lookup_insert_eq in Hq. split; congruence.
  - intros k Hne. simpl. by rewrite lookup_insert_ne, lookup_delete_ne.
  - intros old Hold Hne. simpl. rewrite Hother3 by done.
    destruct (Hold2 old Hold) as [_ ->]. by rewrite Hother0.
  - intros q Hne Hnot. simpl. rewrite Hother3 by done.
    rewrite Hother2 by done. by apply Hother0.
  - intros k q Hq. simpl in Hq. apply Hkeyed' in Hq.
    change (Pointers.Name q w3 = k). by rewrite Hn3.
Qed.

Lemma component_eq w (c : Component H) :
  Pointers.ChanResult w = Registry.ChanResult c ->
  (forall k, objects w <$> Pointers.Healthchecks w !! k = Registry.Healthchecks c !! k) ->
  component w = c.
Proof.
  intros Hchan Hmap. destruct c as [m ch]. unfold component. simpl in *.
  f_equal; [|done]. apply map_eq. intros k. rewrite lookup_fmap. apply Hmap.
Qed.

(** The two models of [AddCheck] agree when the probe handed in is not
    resident itself: the call over pointers returns what the call over
    values returns for the probe behind the pointer, and leaves the state
    that stands for the component the latter leaves. *)
Theorem AddCheck_over_values p w :
  locked w = false ->
  Pointers.keyed w ->
  (forall k, Pointers.Healthchecks w !! k <> Some p) ->
  exists w' history,
    Pointers.AddCheck p w
    = (Returns (Registry.AddCheck (objects w p) (component w)).1.1, w', history)
    /\ component w' = (Registry.AddCheck (objects w p) (component w)).1.2
    /\ locked w' = false.
Proof.
  intros Hfree Hkeyed Hfresh.
  unfold Pointers.AddCheck, Registry.AddCheck.
  destruct (call_spec Initialize p w)
    as (Herr0 & Hat0 & Hother0 & Hmap0 & Hchan0 & Hlock0).
  pose proof (fun q => Name_call Initialize p q w HName_Initialize) as Hnames0.
  destruct (call Initialize p w) as [e0 w0]. simpl in *.
  pose proof (HName_Initialize (objects w p)) as Hn1.
  destruct (Initialize (objects w p)) as [e0' h1]. simpl in *. subst e0' h1.
  assert (Hc0 : forall k, objects w0 <$> Pointers.Healthchecks w0 !! k
                          = objects w <$> Pointers.Healthchecks w !! k).
  { intros k. rewrite Hmap0.
    destruct (Pointers.Healthchecks w !! k) as [q|] eqn:Hq; [|done]. simpl.
    rewrite Hother0; [done|]. intros ->. by eapply Hfresh. }
  destruct e0 as [e|].
  { eexists _, _. split; [done|].
    split; [apply component_eq; simpl|by rewrite Hlock0].
    - done.
    - intros k. rewrite Hc0. by rewrite lookup_fmap. }
  rewrite Hlock0, Hfree.
  unfold Pointers.removeCheck, Registry.removeCheck. simpl.
  change (Pointers.Name p (with_locked true w0)) with (Pointers.Name p w0).
  unfold Pointers.Name at 1. rewrite lookup_fmap, Hmap0.
  destruct (Pointers.Healthchecks w !! HName (objects w0 p)) as [old|] eqn:Hold;
    simpl.
  - assert (Hne : old <> p) by (intros ->; by eapply Hfresh).
    destruct (call_spec Stop old (with_locked true w0))
      as (Herr1 & Hat1 & Hother1 & Hmap1 & Hchan1 & Hlock1).
    destruct (call Stop old (with_locked true w0)) as [e1 w1]. simpl in *.
    rewrite (Hother0 old Hne) in Herr1, Hat1.
    destruct (Stop (objects w old)) as [e1' stopped]. simpl in *. subst e1'.
    destruct e1 as [e|]; cbn [errors_Wrap fst snd].
    + unfold Pointers.Name. rewrite Hat1, (Hother1 p) by done.
      eexists _, _. split; [done|].
      split; [apply component_eq; simpl|done].
      * congruence.
      * intros k. rewrite Hmap1, Hmap0.
        destruct (decide (k = HName (objects w0 p))) as [->|Hk].
        -- rewrite Hold, lookup_insert_eq. simpl. by rewrite Hat1.
        -- rewrite lookup_insert_ne, lookup_fmap by done.
           destruct (Pointers.Healthchecks w !! k) as [q|] eqn:Hq; [|done].
           simpl. f_equal.
           assert (q <> old).
           { intros ->. apply Hkeyed in Hq, Hold. congruence. }
           assert (q <> p) by (intros ->; by eapply Hfresh).
           rewrite Hother1 by done. by apply Hother0.
    + set (w2 := with_Healthchecks _ w1).
      destruct (call_spec (Start (Pointers.ChanResult w2)) p w2)
        as (Herr3 & Hat3 & Hother3 & Hmap3 & Hchan3 & Hlock3).
      destruct (call (Start (Pointers.ChanResult w2)) p w2) as [e3 w3].
      simpl in *. rewrite Hchan1, Hchan0 in *.
      rewrite (Hother1 p) in * by done.
      pose proof (HName_Start (Pointers.ChanResult w) (objects w0 p)) as Hn3.
      destruct (Start (Pointers.ChanResult w) (objects w0 p)) as [e3' started].
      simpl in *. subst e3'.
      assert (Hrest : forall k q,
                 k <> HName (objects w0 p) ->
                 Pointers.Healthchecks w !! k = Some q ->
                 objects w3 q = objects w q).
      { intros k q Hk Hq.
        assert (q <> old).
        { intros ->. apply Hkeyed in Hq, Hold. congruence. }
        assert (q <> p) by (intros ->; by eapply Hfresh).
        rewrite Hother3, Hother1 by done. by apply Hother0. }
      destruct e3 as [e|].
      * unfold Pointers.Name. rewrite Hat3.
        eexists _, _. split; [done|].
        split; [apply component_eq; simpl|done].
        -- congruence.
        -- intros k. rewrite Hmap3, Hmap1, Hmap0.
           destruct (decide (k = HName (objects w0 p))) as [->|Hk].
           ++ by rewrite !lookup_delete_eq.
           ++ rewrite !lookup_delete_ne, lookup_fmap by done.
              destruct (Pointers.Healthchecks w !! k) as [q|] eqn:Hq; [|done].
              simpl. f_equal. by eapply Hrest.
      * eexists _, _. split; [done|].
        split; [apply component_eq; simpl|done].
        -- congruence.
        -- intros k. rewrite Hmap3, Hmap1, Hmap0. unfold Pointers.Name.
           rewrite Hat3.
           destruct (decide (k = HName started)) as [->|Hk].
           ++ rewrite !lookup_insert_eq. simpl. by rewrite Hat3.
           ++ rewrite !lookup_insert_ne by done. rewrite Hn3 in Hk.
              rewrite !lookup_delete_ne, lookup_fmap by done.
              destruct (Pointers.Healthchecks w !! k) as [q|] eqn:Hq; [|done].
              simpl. f_equal. by eapply Hrest.
  - rewrite Hchan0. set (w2 := with_locked true w0).
    destruct (call_spec (Start (Pointers.ChanResult w)) p w2)
      as (Herr3 & Hat3 & Hother3 & Hmap3 & Hchan3 & Hlock3).
    destruct (call (Start (Pointers.ChanResult w)) p w2) as [e3 w3].
    simpl in *.
    pose proof (HName_Start (Pointers.ChanResult w) (objects w0 p)) as Hn3.
    destruct (Start (Pointers.ChanResult w) (objects w0 p)) as [e3' started].
    simpl in *. subst e3'.
    assert (Hrest : forall k q,
               Pointers.Healthchecks w !! k = Some q ->
               objects w3 q = objects w q).
    { intros k q Hq.
      assert (q <> p) by (intros ->; by eapply Hfresh).
      rewrite Hother3 by done. by apply Hother0. }
    destruct e3 as [e|].
    + unfold Pointers.Name. rewrite Hat3.
      eexists _, _. split; [done|].
      split; [apply component_eq; simpl|done].
      * congruence.
      * intros k. rewrite Hmap3, Hmap0, lookup_fmap.
        destruct (Pointers.Healthchecks w !! k) as [q|] eqn:Hq; [|done].
        simpl. f_equal. by eapply Hrest.
    + eexists _, _. split; [done|].
      split; [apply component_eq; simpl|done].
      * congruence.
      * intros k. rewrite Hmap3, Hmap0. unfold Pointers.Name. rewrite Hat3.
        destruct (decide (k = HName started)) as [->|Hk].
        -- rewrite !lookup_insert_eq. simpl. by rewrite Hat3.
        -- rewrite !lookup_insert_ne, lookup_fmap by done.
           destruct (Pointers.Healthchecks w !! k) as [q|] eqn:Hq; [|done].
           simpl. f_equal. by eapply Hrest.
Qed.

End PointerFacts.

(** ** The component *)

Section ComponentFacts.
Import Registry.
Context {H : Type} `{Healthcheck H}.

Implicit Types (h : H) (c : Component H) (m : gmap string H).

Lemma keyed_delete m k : keyed m -> keyed (delete k m).
Proof.
  intros Hm j h. rewrite lookup_delete. case_decide; [done|]. apply Hm.
Qed.

Lemma keyed_insert m h : keyed m -> keyed (<[HName h := h]> m).
Proof.
  intros Hm j q. rewrite lookup_insert. case_decide.
  - intros [= <-]. done.
  - apply Hm.
Qed.


(** The loop of [Stop] up to the first failure: with the keys [pre] stopping
    cleanly and [key] failing, the keys after it are never reached. *)
Lemma Stop_range_first_failure pre key post m bad e :
  NoDup (pre ++ key :: post) ->
  (forall j, j ∈ pre -> exists q, m !! j = Some q /\ (Stop q).1 = None) ->
  m !! key = Some bad ->
  (Stop bad).1 = Some e ->
  exists m',
    Stop_range (pre ++ key :: post) m
    = (Some ("Fail to stop the healthcheck component" +:+ ": " +:+ e), m',
       EvStop <$> (pre ++ [key]))
    /\ (forall j, j ∈ pre ++ [key] -> m' !! j = (fun q => (Stop q).2) <$> m !! j)
    /\ (forall j, j ∉ pre ++ [key] -> m' !! j = m !! j).
Proof.
  revert m. induction pre as [|a pre IH]; intros m Hnd Hpre Hkey Hbad.
  - simpl. rewrite Hkey. destruct (Stop bad) as [eb stopped] eqn:HSb.
    simpl in Hbad. subst eb. simpl. eexists. split_and!; [done| |].
    + intros j ->%list_elem_of_singleton.
      by rewrite lookup_insert_eq, Hkey; simpl; rewrite HSb.
    + intros j Hj%not_elem_of_cons. by rewrite lookup_insert_ne by naive_solver.
  - simpl in Hnd. apply NoDup_cons in Hnd as [Ha Hnd].
    destruct (Hpre a) as (q & Hq & Hstopq); [set_solver|].
    simpl. rewrite Hq. destruct (Stop q) as [eq stopped] eqn:HSq.
    simpl in Hstopq. subst eq.
    assert (Hak : a <> key) by set_solver.
    destruct (IH (<[a := stopped]> m)) as (m' & -> & Hin & Hout); try done.
    + intros j Hj. assert (a <> j) by set_solver.
      rewrite lookup_insert_ne by done. apply Hpre. set_solver.
    + by rewrite lookup_insert_ne.
    + eexists. split_and!; [done| |].
      * intros j Hj. destruct (decide (j = a)) as [->|Hne].
        -- rewrite Hout by set_solver.
           by rewrite lookup_insert_eq, Hq; simpl; rewrite HSq.
        -- rewrite Hin by set_solver. by rewrite lookup_insert_ne.
      * intros j Hj. assert (a <> j) by set_solver.
        rewrite Hout by set_solver. by rewrite lookup_insert_ne.
Qed.

(** The loop of [Stop] when no probe fails: every key of the order is
    stopped, in that order. *)
Lemma Stop_range_no_failure order m :
  NoDup order ->
  (forall j, j ∈ order -> exists q, m !! j = Some q /\ (Stop q).1 = None) ->
  exists m',
    Stop_range order m = (None, m', EvStop <$> order)
    /\ (forall j, j ∈ order -> m' !! j = (fun q => (Stop q).2) <$> m !! j)
    /\ (forall j, j ∉ order -> m' !! j = m !! j).
Proof.
  revert m. induction order as [|a order IH]; intros m Hnd Hall.
  - simpl. eexists. split_and!; [done| |done]. intros j Hj. set_solver.
  - apply NoDup_cons in Hnd as [Ha Hnd].
    destruct (Hall a) as (q & Hq & Hstopq); [set_solver|].
    simpl. rewrite Hq. destruct (Stop q) as [eq stopped] eqn:HSq.
    simpl in Hstopq. subst eq.
    destruct (IH (<[a := stopped]> m)) as (m' & -> & Hin & Hout); try done.
    + intros j Hj. assert (a <> j) by set_solver.
      rewrite lookup_insert_ne by done. apply Hall. set_solver.
    + eexists. split_and!; [done| |].
      * intros j Hj. destruct (decide (j = a)) as [->|Hne].
        -- rewrite Hout by set_solver.
           by rewrite lookup_insert_eq, Hq; simpl; rewrite HSq.
        -- rewrite Hin by set_solver. by rewrite lookup_insert_ne.
      * intros j Hj. assert (a <> j) by set_solver.
        rewrite Hout by set_solver. by rewrite lookup_insert_ne.
Qed.

(** C5, as the code has it. [Stop] walks the resident probes in the order
    of the run. When no probe fails it stops every one and returns [nil].
    When the probes before [key] stop cleanly and [key] fails with [e], it
    returns that error, wrapped, at once: the probes up to [key] were
    attempted, those after it are left as they were. *)
Theorem StopComponent_returns_at_first_failure order c :
  range_order order (Healthchecks c) ->
  ((forall j q, Healthchecks c !! j = Some q -> (Stop q).1 = None) ->
   exists c',
     StopComponent order c
     = (None, c', [EvLock] ++ (EvStop <$> order) ++ [EvUnlock])
     /\ forall j q, Healthchecks c !! j = Some q ->
          Healthchecks c' !! j = Some (Stop q).2)
  /\ (forall pre key post bad e,
        order = pre ++ key :: post ->
        (forall j q, j ∈ pre -> Healthchecks c !! j = Some q -> (Stop q).1 = None) ->
        Healthchecks c !! key = Some bad ->
        (Stop bad).1 = Some e ->
        exists c',
          StopComponent order c
          = (Some ("Fail to stop the healthcheck component: " +:+ e), c',
             [EvLock] ++ (EvStop <$> pre ++ [key]) ++ [EvUnlock])
          /\ (forall j q, j ∈ pre ++ [key] -> Healthchecks c !! j = Some q ->
                Healthchecks c' !! j = Some (Stop q).2)
          /\ (forall j, j ∈ post -> Healthchecks c' !! j = Healthchecks c !! j)).
Proof.
  intros [Hnd Hdom]. split.
  - intros Hall.
    destruct (Stop_range_no_failure order (Healthchecks c) Hnd)
      as (m' & Hrun & Hin & _).
    { intros j [q Hq]%Hdom. exists q. split; [done|]. by eapply Hall. }
    unfold StopComponent. rewrite Hrun. eexists. split; [done|]. simpl.
    intros j q Hq. rewrite Hin.
    + by rewrite Hq.
    + apply Hdom. by exists q.
  - intros pre key post bad e -> Hpre Hkey Hbad.
    destruct (Stop_range_first_failure pre key post (Healthchecks c) bad e)
      as (m' & Hrun & Hin & Hout); try done.
    { intros j Hj. destruct (Hdom j) as [[q Hq] _]; [set_solver|].
      exists q. split; [done|]. by eapply Hpre. }
    unfold StopComponent. rewrite Hrun. eexists. split_and!; [done| |]; simpl.
    + intros j q Hj Hq. by rewrite Hin, Hq.
    + intros j Hj. apply Hout. intros Hj'.
      rewrite cons_middle, (assoc_L (++)) in Hnd.
      apply NoDup_app in Hnd as (_ & Hdisj & _). by eapply Hdisj.
Qed.

End ComponentFacts.

Section ResultFacts.
Import Registry.
Context {H : Type} `{Named H}.

(** C7, as the code has it. The Result built from a probe and the error of
    its execution holds the probe's name, whether the error was [nil], the
    time it was built, and as message ["success"] or the error's text. It
    has no other field. *)
Theorem NewResult_fields (h : H) (err : error) (now : Time) :
  Name (NewResult h err now) = HName h
  /\ Success (NewResult h err now) = negb (is_err err)
  /\ Timestamp (NewResult h err now) = now
  /\ message (NewResult h err now) = default "success" err.
Proof. by destruct err. Qed.

End ResultFacts.

Section ComponentExamples.
Import Registry.

Lemma range_order_two_probes : range_order ["a"; "b"] (Healthchecks Registry.two_probes).
Proof.
  split.
  - apply NoDup_cons. split; [|apply NoDup_singleton].
    by intros [=]%list_elem_of_singleton.
  - intros k. simpl. rewrite lookup_insert, lookup_singleton. split.
    + intros [->|[->|[]%elem_of_nil]%elem_of_cons]%elem_of_cons.
      * by rewrite decide_True.
      * rewrite decide_False by done. by rewrite decide_True.
    + repeat case_decide; subst.
      * intros _. apply elem_of_cons. by left.
      * intros _. apply elem_of_cons. right. apply elem_of_cons. by left.
      * by intros [? [=]].
Qed.

End ComponentExamples.

Lemma one_probe_keyed : Pointers.keyed Pointers.one_probe.
Proof.
  intros k p. simpl. rewrite lookup_singleton. case_decide; [|done].
  by intros [= <-].
Qed.

(** Replacing the running probe ["web"], behind pointer 0, by the fresh one
    behind pointer 1: the maps of the seven states, the lock in each, and
    the two probes afterwards. Then handing in pointer 0 itself: the probe
    behind it was initialized, stopped and started again. *)
Lemma AddCheck_swaps_under_lock_witness :
  (Pointers.AddCheck 1%nat Pointers.one_probe).1.1 = Pointers.Returns None
  /\ Pointers.locked <$> (Pointers.AddCheck 1%nat Pointers.one_probe).2
     = [false; false; true; true; true; true; false]
  /\ Pointers.Healthchecks <$> (Pointers.AddCheck 1%nat Pointers.one_probe).2
     = [ {[ "web" := 0%nat ]}; {[ "web" := 0%nat ]}; {[ "web" := 0%nat ]};
         ∅; ∅; {[ "web" := 1%nat ]}; {[ "web" := 1%nat ]} ]
  /\ Pointers.Healthchecks (Pointers.AddCheck 1%nat Pointers.one_probe).1.2
     !! "web" = Some 1%nat
  /\ Registry.running
       (Pointers.objects (Pointers.AddCheck 1%nat Pointers.one_probe).1.2 1%nat)
     = true
  /\ Registry.running
       (Pointers.objects (Pointers.AddCheck 1%nat Pointers.one_probe).1.2 0%nat)
     = false
  /\ Pointers.Healthchecks (Pointers.AddCheck 0%nat Pointers.one_probe).1.2
     !! "web" = Some 0%nat
  /\ Registry.calls
       (Pointers.objects (Pointers.AddCheck 0%nat Pointers.one_probe).1.2 0%nat)
     = ["Start"; "Initialize"; "Stop"; "Start"].
Proof.
  assert (Hrun : Pointers.AddCheck 1%nat Pointers.one_probe
                 = (Pointers.Returns None,
                    (Pointers.AddCheck 1%nat Pointers.one_probe).1.2,
                    (Pointers.AddCheck 1%nat Pointers.one_probe).2))
    by reflexivity.
  assert (Hagain : Pointers.AddCheck 0%nat Pointers.one_probe
                   = (Pointers.Returns None,
                      (Pointers.AddCheck 0%nat Pointers.one_probe).1.2,
                      (Pointers.AddCheck 0%nat Pointers.one_probe).2))
    by reflexivity.
  destruct (AddCheck_swaps_under_lock (H := Registry.Mock) 1%nat
              Pointers.one_probe eq_refl one_probe_keyed)
    as (_ & _ & _ & Hswap).
  destruct (Hswap _ _ Hrun)
    as (w0 & w1 & w2 & w3 & w4 & _ & Hlock & _ & _ & _ & _ & _ & _ & _ & _ & _
        & _ & _ & _ & Hnew & _).
  destruct (AddCheck_swaps_under_lock (H := Registry.Mock) 0%nat
              Pointers.one_probe eq_refl one_probe_keyed)
    as (_ & _ & _ & Hreadd).
  destruct (Hreadd _ _ Hagain)
    as (v0 & v1 & v2 & v3 & v4 & _ & _ & _ & _ & _ & _ & _ & _ & _ & _ & _
        & _ & _ & _ & Hsame & _).
  split_and!.
  - reflexivity.
  - exact Hlock.
  - reflexivity.
  - exact Hnew.
  - reflexivity.
  - reflexivity.
  - exact Hsame.
  - reflexivity.
Defined.

(** The same replacement in both models. *)
Lemma AddCheck_over_values_witness :
  exists w' history,
    Pointers.AddCheck 1%nat Pointers.one_probe
    = (Pointers.Returns None, w', history)
    /\ Pointers.component w'
       = (Registry.AddCheck (Registry.good "web") Registry.one_probe).1.2.
Proof.
  destruct (AddCheck_over_values (H := Registry.Mock) 1%nat Pointers.one_probe
              eq_refl one_probe_keyed)
    as (w' & history & Hrun & Hcomponent & _).
  - intros k. simpl. rewrite lookup_singleton. case_decide; congruence.
  - exists w', history. split; [exact Hrun|exact Hcomponent].
Defined.


(** C5, the claim as stated fails: with ["a"] met first and failing, [Stop]
    returns after that single attempt; ["b"] is never asked to stop and its
    driver is still up. *)
Lemma StopComponent_skips_after_failure :
  (Registry.StopComponent ["a"; "b"] Registry.two_probes).1.1
  = Some "Fail to stop the healthcheck component: boom"
  /\ (Registry.StopComponent ["a"; "b"] Registry.two_probes).2
     = [Registry.EvLock; Registry.EvStop "a"; Registry.EvUnlock]
  /\ Registry.Healthchecks (Registry.StopComponent ["a"; "b"] Registry.two_probes).1.2
     !! "b"
     = Some {| Registry.mock_name := "b"; Registry.init_err := None;
               Registry.start_err := None; Registry.stop_err := None;
               Registry.exec_err := None; Registry.one_off := false;
               Registry.source := ""; Registry.running := true;
               Registry.calls := ["Start"] |}.
Proof. split_and!; reflexivity. Qed.

(** The same run, through the theorem. *)
Lemma StopComponent_returns_at_first_failure_witness :
  Registry.range_order ["a"; "b"] (Registry.Healthchecks Registry.two_probes)
  /\ exists c',
       Registry.StopComponent ["a"; "b"] Registry.two_probes
       = (Some "Fail to stop the healthcheck component: boom", c',
          [Registry.EvLock; Registry.EvStop "a"; Registry.EvUnlock])
       /\ Registry.Healthchecks c' !! "b"
          = Registry.Healthchecks Registry.two_probes !! "b".
Proof.
  split; [exact range_order_two_probes|].
  destruct (StopComponent_returns_at_first_failure ["a"; "b"] Registry.two_probes
              range_order_two_probes) as [_ Hfail].
  destruct (Hfail [] "a" ["b"] (Registry.stuck "a" "boom") "boom" eq_refl)
    as (c' & Hrun & _ & Hrest).
  - intros j q []%elem_of_nil.
  - reflexivity.
  - reflexivity.
  - exists c'. split; [exact Hrun|]. apply Hrest, list_elem_of_singleton.
    reflexivity.
Defined.

(** C7, the claim as stated fails: [NewResult] is given the probe and the
    error, and reads the clock. Two executions of ["web"] that end at the
    same time with the same outcome, one of one second and one of three,
    yield one and the same Result; so do two probes that differ in their
    source only. Neither the duration nor the source is in the Result. *)
Lemma Result_has_no_duration_nor_source :
  Registry.took Registry.short_run = 1 * Second
  /\ Registry.took Registry.long_run = 3 * Second
  /\ Registry.Result_of Registry.short_run
     = Registry.mkResult "web" true (100 * Second) "success"
  /\ Registry.Result_of Registry.long_run
     = Registry.mkResult "web" true (100 * Second) "success"
  /\ Http.HSource (Registry.tagged "api") = "api"
  /\ Http.HSource (Registry.tagged "file") = "file"
  /\ Registry.NewResult (Registry.tagged "api") None (100 * Second)
     = Registry.NewResult (Registry.tagged "file") None (100 * Second).
Proof. split_and!; reflexivity. Qed.

(** ** The DNS probe: [Stop] and the driver *)

Section DnsFacts.
Import Dns.

Lemma Stop_shape h o :
  Stop h = o ->
  match o with
  | Panics _ => Tick h = None
  | Returns err h' =>
      err = None /\ dead (t h) = true /\ dead (t h') = true
      /\ stop_requested h'
  | Waits h' =>
      dead (t h) = false /\ dead (t h') = false /\ stop_requested h'
  end.
Proof.
  unfold Stop. destruct (Tick h) as [tick|] eqn:Htick; [|by intros <-].
  destruct (dead (t h)) eqn:Hdead; intros <-; split_and!; try done;
    by eexists _, _.
Qed.

Lemma step_keeps_stop_requested s w w' :
  step s w = Some w' -> stop_requested (probe w) -> stop_requested (probe w').
Proof.
  intros Hstep (p & c & Htick & Hdying). destruct s; simpl in Hstep.
  - rewrite Htick in Hstep. discriminate.
  - rewrite Htick in Hstep. simpl in Hstep.
    destruct (drivers w !! i) as [[]|]; try discriminate.
    destruct c; [|discriminate]. injection Hstep as <-. by eexists _, _.
  - destruct (drivers w !! i) as [[]|]; try discriminate.
    rewrite Hdying in Hstep. injection Hstep as <-. by eexists _, _.
  - destruct (drivers w !! i) as [[]|]; try discriminate.
    injection Hstep as <-. by eexists _, _.
Qed.

Lemma run_keeps_stop_requested schedule w w' :
  run schedule w = Some w' -> stop_requested (probe w) ->
  stop_requested (probe w').
Proof.
  revert w. induction schedule as [|s rest IH]; intros w; simpl.
  - by intros [= <-].
  - destruct (step s w) as [w1|] eqn:Hstep; [|done].
    intros Hrun Hreq. eapply IH; [done|]. by eapply step_keeps_stop_requested.
Qed.

(** Once the tomb is dead and a stop was requested, [Stop] returns at once
    and writes nothing new. *)
Lemma Stop_again h :
  stop_requested h -> dead (t h) = true -> Stop h = Returns None h.
Proof.
  intros (p & c & Htick & Hdying) Hdead. unfold Stop.
  rewrite Htick, Hdead. simpl. f_equal.
  destruct h as [ch cfg url tk [dy de]]. simpl in *. by subst.
Qed.

Lemma started_is_started_once w : started w -> started_once w.
Proof.
  induction 1 as [config ch w Hstart | s w w' _ IH Hstep
                 | w h _ IH Hstop | w err h _ IH Hstop].
  - unfold Start, fresh in Hstart. simpl in Hstart.
    destruct (DnsConfig.Interval config <=? 0); [done|].
    injection Hstart as <-. split; [by eexists|]. by exists AtSelect.
  - destruct IH as ([tick Htick] & d & Hd & Hdead).
    destruct s; simpl in Hstep; rewrite ?Hd, ?Htick in Hstep.
    + destruct (active tick); [|done]. injection Hstep as <-.
      split; [by eexists|]. by exists d.
    + destruct i as [|i]; simpl in Hstep; [|done].
      destruct d; try done. destruct (C tick); [|done].
      injection Hstep as <-. split; [by eexists|]. by eexists.
    + destruct i as [|i]; simpl in Hstep; [|done].
      destruct d; try done. destruct (dying (t (probe w))); [|done].
      injection Hstep as <-. split; [simpl; by rewrite Htick|]. by eexists.
    + destruct i as [|i]; simpl in Hstep; [|done].
      destruct d; try done. injection Hstep as <-.
      split; [simpl; by rewrite Htick|]. by eexists.
  - destruct IH as (Htick & d & Hd & Hdead).
    apply Stop_shape in Hstop as (Hd1 & Hd2 & p & c & Htick' & _).
    split; [simpl; by rewrite Htick'|]. exists d. simpl.
    split; [done|]. congruence.
  - destruct IH as (Htick & d & Hd & Hdead).
    apply Stop_shape in Hstop as (_ & Hd1 & Hd2 & p & c & Htick' & _).
    split; [simpl; by rewrite Htick'|]. exists d. simpl.
    split; [done|]. congruence.
Qed.

(** C3, as the code has it. On a probe that was started, [Stop] never
    panics; some run of its driver lets it return, and it then returns
    [nil]; after a [Stop] that returned, every further [Stop] returns [nil]
    at once and leaves the probe as it is. *)
Theorem Stop_idempotent_once_started w :
  started w ->
  (forall schedule why, StopCall schedule w <> Panics why)
  /\ (exists schedule w', StopCall schedule w = Returns None w')
  /\ (forall schedule err w',
        StopCall schedule w = Returns err w' ->
        err = None
        /\ forall schedule', StopCall schedule' w' = Returns None w').
Proof.
  intros Hst. destruct (started_is_started_once w Hst)
    as ([tick Htick] & d & Hd & Hdead).
  split_and!.
  - intros schedule why. unfold StopCall, Stop. rewrite Htick.
    destruct (dead (t (probe w))); [done|].
    destruct (run _ _) as [w'|]; [|done]. by destruct (dead _).
  - unfold StopCall.
    destruct (Stop (probe w)) as [err h|why|h] eqn:Hstop;
      apply Stop_shape in Hstop as Hshape.
    + destruct Hshape as (-> & _). by exists [], (with_probe w h).
    + congruence.
    + destruct Hshape as (Hd1 & Hd2 & p & c & Htick' & Hdying).
      rewrite Hd1 in Hdead. destruct d; try done.
      * exists [SelectDying 0%nat]. simpl. rewrite Hd. simpl.
        rewrite Hdying. simpl. by eexists.
      * exists [SinkAccepts 0%nat; SelectDying 0%nat]. simpl. rewrite Hd.
        simpl. rewrite Hdying. simpl. by eexists.
  - intros schedule err w'. unfold StopCall.
    destruct (Stop (probe w)) as [err0 h|why|h] eqn:Hstop;
      apply Stop_shape in Hstop as Hshape; [| done |].
    + destruct Hshape as (-> & _ & Hd2 & Hreq). intros [= <- <-].
      split; [done|]. intros schedule'. simpl.
      rewrite (Stop_again h Hreq Hd2). by destruct w.
    + destruct Hshape as (_ & _ & Hreq).
      destruct (run schedule (with_probe w h)) as [w1|] eqn:Hrun; [|done].
      destruct (dead (t (probe w1))) eqn:Hdead1; [|done].
      intros [= <- <-]. split; [done|]. intros schedule'.
      apply run_keeps_stop_requested in Hrun; [|done].
      rewrite (Stop_again _ Hrun Hdead1). by destruct w1.
Qed.

End DnsFacts.

Lemma running_world_started : Dns.started Dns.running_world.
Proof. by apply (Dns.started_Start Dns.every_5s 0%nat). Qed.

Lemma blocked_world_started : Dns.started Dns.blocked_world.
Proof.
  pose (ticked :=
          {| Dns.probe :=
               Dns.with_Tick (Dns.probe Dns.running_world)
                 {| Dns.period := 5 * Second; Dns.active := true;
                    Dns.C := true |};
             Dns.drivers := [Dns.AtSelect]; Dns.sink := [] |}).
  pose (sending :=
          {| Dns.probe := Dns.probe Dns.running_world;
             Dns.drivers := [Dns.AtSend Dns.failed_lookup];
             Dns.sink := [] |}).
  assert (Hticked : Dns.started ticked).
  { apply (Dns.started_step Dns.TimerFires Dns.running_world);
      [exact running_world_started | reflexivity]. }
  assert (Hsending : Dns.started sending).
  { apply (Dns.started_step
             (Dns.SelectTick 0 (Some "no such host") 100) ticked);
      [exact Hticked | reflexivity]. }
  exact (Dns.started_Stop_waits sending _ Hsending eq_refl).
Qed.

(** C3, the claim as stated fails: on a probe built by [NewDNSHealthcheck]
    and never started, [Stop] dereferences the [nil] ticker and panics. *)
Lemma Stop_before_Start_panics :
  Dns.Stop (Dns.NewDNSHealthcheck Dns.every_5s)
  = Dns.Panics "invalid memory address or nil pointer dereference"
  /\ Dns.StopCall [] (Dns.fresh Dns.every_5s)
     = Dns.Panics "invalid memory address or nil pointer dereference".
Proof. split; reflexivity. Qed.

(** [Stop] on the running probe, twice. *)
Lemma Stop_idempotent_once_started_witness :
  Dns.started Dns.running_world
  /\ exists w',
       Dns.StopCall [Dns.SelectDying 0] Dns.running_world = Dns.Returns None w'
       /\ Dns.StopCall [] w' = Dns.Returns None w'.
Proof.
  split; [exact running_world_started|].
  destruct (Stop_idempotent_once_started Dns.running_world
              running_world_started) as (_ & _ & Hagain).
  eexists. split; [reflexivity|].
  exact (proj2 (Hagain [Dns.SelectDying 0%nat] None _ eq_refl) []).
Defined.

Section DriverFacts.
Import Dns.

(** C6, as the code has it. A goroutine inside the send of a Result stays
    there, whether or not a stop is pending, until the channel takes the
    Result: no step drops it. A goroutine at its [select] with a stop pending
    can take the dying case, and then returns without sending anything. *)
Theorem driver_sends_before_it_stops w i :
  (forall result s w',
     drivers w !! i = Some (AtSend result) ->
     step s w = Some w' ->
     drivers w' !! i = Some (AtSend result)
     \/ (s = SinkAccepts i /\ drivers w' !! i = Some AtSelect
         /\ sink w' = sink w ++ [result]))
  /\ (drivers w !! i = Some AtSelect ->
      dying (t (probe w)) = true ->
      exists w',
        step (SelectDying i) w = Some w'
        /\ drivers w' !! i = Some Returned
        /\ sink w' = sink w).
Proof.
  split.
  - intros result s w' Hi Hstep. destruct s as [|j lookup now|j|j];
      simpl in Hstep.
    + destruct (Tick (probe w)) as [tick|]; [|done].
      destruct (active tick); [|done]. injection Hstep as <-. by left.
    + destruct (drivers w !! j) as [[]|] eqn:Hj; try done.
      destruct (Tick (probe w)) as [tick|]; [|done].
      destruct (C tick); [|done]. injection Hstep as <-. left. simpl.
      rewrite list_lookup_insert_ne; [done|]. intros ->. congruence.
    + destruct (drivers w !! j) as [[]|] eqn:Hj; try done.
      destruct (dying (t (probe w))); [|done]. injection Hstep as <-.
      left. simpl. rewrite list_lookup_insert_ne; [done|].
      intros ->. congruence.
    + destruct (drivers w !! j) as [[|r|]|] eqn:Hj; try done.
      injection Hstep as <-. simpl. destruct (decide (j = i)) as [->|Hne].
      * right. rewrite Hi in Hj. injection Hj as <-. split_and!; try done.
        apply list_lookup_insert_eq. by eapply lookup_lt_Some.
      * left. by rewrite list_lookup_insert_ne.
  - intros Hi Hdying. simpl. rewrite Hi, Hdying. eexists.
    split_and!; try done. simpl. apply list_lookup_insert_eq.
    by eapply lookup_lt_Some.
Qed.

End DriverFacts.

(** The goroutine of the probe whose [Stop] is waiting: delivering its
    Result is its only move. *)
Lemma driver_sends_before_it_stops_witness :
  Dns.drivers Dns.blocked_world !! 0%nat = Some (Dns.AtSend Dns.failed_lookup)
  /\ Dns.step (Dns.SinkAccepts 0) Dns.blocked_world
     = Some {| Dns.probe := Dns.probe Dns.blocked_world;
               Dns.drivers := [Dns.AtSelect];
               Dns.sink := [Dns.failed_lookup] |}
  /\ exists w',
       Dns.step (Dns.SelectDying 0)
         {| Dns.probe := Dns.probe Dns.blocked_world;
            Dns.drivers := [Dns.AtSelect];
            Dns.sink := [Dns.failed_lookup] |} = Some w'
       /\ Dns.drivers w' !! 0%nat = Some Dns.Returned
       /\ Dns.sink w' = [Dns.failed_lookup].
Proof.
  split_and!; [reflexivity..|].
  exact (proj2 (driver_sends_before_it_stops
                  {| Dns.probe := Dns.probe Dns.blocked_world;
                     Dns.drivers := [Dns.AtSelect];
                     Dns.sink := [Dns.failed_lookup] |} 0%nat)
           eq_refl eq_refl).
Defined.

(** C6, the claim as stated fails: with a stop pending and its send
    blocked, the goroutine cannot take the dying case; every step leaves it
    in the send or delivers the Result, none drops it; and [Stop] stays
    parked for as long as the channel does not take the Result. *)
Lemma blocked_send_ignores_stop :
  Dns.started Dns.blocked_world
  /\ Dns.dying (Dns.t (Dns.probe Dns.blocked_world)) = true
  /\ Dns.drivers Dns.blocked_world = [Dns.AtSend Dns.failed_lookup]
  /\ Dns.step (Dns.SelectDying 0) Dns.blocked_world = None
  /\ (forall s w',
        Dns.step s Dns.blocked_world = Some w' ->
        Dns.drivers w' = [Dns.AtSend Dns.failed_lookup]
        \/ (Dns.drivers w' = [Dns.AtSelect]
            /\ Dns.sink w' = [Dns.failed_lookup]))
  /\ Dns.StopCall [Dns.SelectDying 0] Dns.blocked_world
     = Dns.Waits Dns.blocked_world.
Proof.
  split_and!; try reflexivity.
  - exact blocked_world_started.
  - intros [|[|j] lookup now|[|j]|[|j]] w'; simpl; try done.
    intros [= <-]. by right.
Qed.

(** ** [Execute] and its deadline *)

(** The TCP probe: [Execute] gives the dial exactly the configured timeout.
    A dial that has not answered when the timeout has elapsed ends with the
    dialer's timeout error, wrapped with the address; a dial that answers
    before is judged by its own outcome: its error wrapped the same way, else
    the error of the close, else [nil]. *)
Theorem Tcp_Execute_deadline_is_timeout (c : Tcp.TCPHealthcheckConfiguration)
    (URL : string) (d : Tcp.Dial) :
  (Tcp.Timeout c <= Tcp.answers_after d ->
   Tcp.Execute c URL d
   = Some ("TCP connection failed on " +:+ URL +:+ ": " +:+ Tcp.timeout_err d))
  /\ (Tcp.answers_after d < Tcp.Timeout c ->
      Tcp.Execute c URL d
      = match Tcp.dial_err d, Tcp.close_err d with
        | Some e, _ => Some ("TCP connection failed on " +:+ URL +:+ ": " +:+ e)
        | None, Some e => Some ("Unable to close TCP connection: " +:+ e)
        | None, None => None
        end).
Proof.
  unfold Tcp.Execute, Tcp.Execute_deadline. split.
  - intros Hlate. by rewrite (proj2 (Z.leb_le _ _) Hlate).
  - intros Hearly. rewrite (proj2 (Z.leb_gt _ _) Hearly).
    by destruct (Tcp.dial_err d), (Tcp.close_err d).
Qed.

(** Under a timeout of one second: a dial of a port that answers nothing,
    and a dial refused after a millisecond. *)
Lemma Tcp_Execute_deadline_is_timeout_witness :
  Tcp.Execute
    (Tcp.mkConfig "t1" "" "10.0.0.1" 81 Second (2 * Second) false)
    "10.0.0.1:81"
    (Tcp.mkDial (30 * Second) None "dial tcp 10.0.0.1:81: i/o timeout" None)
  = Some "TCP connection failed on 10.0.0.1:81: dial tcp 10.0.0.1:81: i/o timeout"
  /\ Tcp.Execute
       (Tcp.mkConfig "t1" "" "127.0.0.1" 81 Second (2 * Second) false)
       "127.0.0.1:81"
       (Tcp.mkDial 1000000
          (Some "dial tcp 127.0.0.1:81: connect: connection refused")
          "dial tcp 127.0.0.1:81: i/o timeout" None)
     = Some "TCP connection failed on 127.0.0.1:81: dial tcp 127.0.0.1:81: connect: connection refused".
Proof.
  split.
  - apply (Tcp_Execute_deadline_is_timeout
             (Tcp.mkConfig "t1" "" "10.0.0.1" 81 Second (2 * Second) false)
             "10.0.0.1:81"
             (Tcp.mkDial (30 * Second) None "dial tcp 10.0.0.1:81: i/o timeout"
                None)).
    vm_compute. discriminate.
  - apply (Tcp_Execute_deadline_is_timeout
             (Tcp.mkConfig "t1" "" "127.0.0.1" 81 Second (2 * Second) false)
             "127.0.0.1:81"
             (Tcp.mkDial 1000000
                (Some "dial tcp 127.0.0.1:81: connect: connection refused")
                "dial tcp 127.0.0.1:81: i/o timeout" None)).
    vm_compute. reflexivity.
Defined.

(** C4 on the command probe: the deadline is the timeout times [time.Second].
    With a timeout of 5s it is 5e18 ns and [sleep 10] ends unharmed; with a
    timeout of 10s the product wraps to a negative duration and [Execute]
    fails before the process starts. *)
Theorem Command_Execute_deadline_is_multiplied (directives : string -> string) :
  Command.Validate (Command.sleeper (5 * Second)) = None
  /\ Command.Execute_deadline (Command.sleeper (5 * Second)) = 5 * Second * Second
  /\ Command.Execute directives (Command.sleeper (5 * Second))
       (Command.mkProcess None None (10 * Second) 0 "") = None
  /\ Command.Validate (Command.sleeper (10 * Second)) = None
  /\ Command.Execute_deadline (Command.sleeper (10 * Second)) = -8446744073709551616
  /\ Command.Execute directives (Command.sleeper (10 * Second))
       (Command.mkProcess None None 0 0 "")
     = Some "The command failed, stderr=: context deadline exceeded".
Proof. split_and!; reflexivity. Qed.

(** ** Basic Auth *)

Section BasicAuthFacts.
Import Http.

Lemma byte_xor_zero a b : byte_xor a b = Ascii.zero <-> a = b.
Proof.
  destruct a as [a0 a1 a2 a3 a4 a5 a6 a7], b as [b0 b1 b2 b3 b4 b5 b6 b7].
  simpl. split.
  - intros [= H0 H1 H2 H3 H4 H5 H6 H7].
    apply xorb_eq in H0, H1, H2, H3, H4, H5, H6, H7. by subst.
  - intros [= -> -> -> -> -> -> -> ->]. by rewrite !xorb_nilpotent.
Qed.

Lemma byte_or_zero a b :
  byte_or a b = Ascii.zero <-> a = Ascii.zero /\ b = Ascii.zero.
Proof.
  destruct a as [a0 a1 a2 a3 a4 a5 a6 a7], b as [b0 b1 b2 b3 b4 b5 b6 b7].
  simpl. split.
  - intros [= H0 H1 H2 H3 H4 H5 H6 H7].
    apply orb_false_iff in H0, H1, H2, H3, H4, H5, H6, H7.
    destruct H0, H1, H2, H3, H4, H5, H6, H7. by subst.
  - by intros [[= -> -> -> -> -> -> -> ->] [= -> -> -> -> -> -> -> ->]].
Qed.

Lemma ConstantTimeByteEq_zero v :
  (ConstantTimeByteEq v Ascii.zero = 1 <-> v = Ascii.zero)
  /\ (ConstantTimeByteEq v Ascii.zero = 1 \/ ConstantTimeByteEq v Ascii.zero = 0).
Proof.
  destruct v as [[] [] [] [] [] [] [] []]; vm_compute;
    (split; [split; congruence | auto]).
Qed.

Lemma or_of_xors_zero x :
  forall v y, String.length x = String.length y ->
    or_of_xors v x y = Ascii.zero <-> v = Ascii.zero /\ x = y.
Proof.
  induction x as [|a x IH]; intros v [|b y]; simpl; try done.
  - intros _. split; [by intros ->|by intros [-> _]].
  - intros [= Hlen]. rewrite (IH _ _ Hlen), byte_or_zero, byte_xor_zero.
    split.
    + by intros [[-> ->] ->].
    + by intros [-> [= -> ->]].
Qed.

(** [ConstantTimeCompare] answers 1 on equal strings and 0 otherwise. *)
Lemma ConstantTimeCompare_eq x y :
  (ConstantTimeCompare x y = 1 <-> x = y)
  /\ (ConstantTimeCompare x y = 1 \/ ConstantTimeCompare x y = 0).
Proof.
  unfold ConstantTimeCompare.
  destruct (Nat.eqb_spec (String.length x) (String.length y)) as [Hlen|Hlen].
  - destruct (ConstantTimeByteEq_zero (or_of_xors Ascii.zero x y)) as [Hv Hb].
    split; [|done]. rewrite Hv, (or_of_xors_zero _ _ _ Hlen). naive_solver.
  - split; [|by right]. split; [done|]. intros ->. done.
Qed.

(** The first version of the handlers: access is granted exactly when
    both the user name and the password are the configured ones. *)
Theorem basicAuth_v1_grants_iff_match config username password :
  (V1.basicAuth config username password).1.1 = true
  <-> username = Username config /\ password = Password config.
Proof.
  unfold V1.basicAuth.
  destruct (ConstantTimeCompare_eq username (Username config)) as [Hu [Hu1|Hu0]],
    (ConstantTimeCompare_eq password (Password config)) as [Hp [Hp1|Hp0]].
  - rewrite Hu1, Hp1. simpl. naive_solver.
  - rewrite Hu1, Hp0. simpl. split; [done|]. intros [_ Heq%Hp]. congruence.
  - rewrite Hu0. simpl. split; [done|]. intros [Heq%Hu _]. congruence.
  - rewrite Hu0. simpl. split; [done|]. intros [Heq%Hu _]. congruence.
Qed.

(** C9 in the second version of the handlers: the callback answers [true]
    for every pair, logging the mismatch it lets through. *)
Theorem basicAuth_v2_always_grants config username password :
  (V2.basicAuth config username password).1 = (true, None)
  /\ V2.basicAuth (mkBasicAuth "admin" "secret") "admin" "wrong"
     = (true, None, ["Invalid Basic Auth credentials"]).
Proof.
  split; [|reflexivity]. unfold V2.basicAuth. by destruct (_ && _).
Qed.

End BasicAuthFacts.

(** ** One-off execution *)

Section OneOffFacts.
Import Registry Http.
Context {H : Type} `{Healthcheck H} `{Described H}.


End OneOffFacts.



(** ** More on the component *)

Section ComponentRuns.
Import Registry Runs.
Context {H : Type} `{Healthcheck H}.

Implicit Types (h : H) (c : Component H) (m : gmap string H).

(** What [removeCheck] returns, path by path. *)
Lemma removeCheck_cases identifier c :
  (Healthchecks c !! identifier = None
   /\ removeCheck identifier c = (None, c, []))
  \/ (exists old,
        Healthchecks c !! identifier = Some old
        /\ (Stop old).1 = None
        /\ removeCheck identifier c
           = (None,
              {| Healthchecks := delete identifier (Healthchecks c);
                 ChanResult := ChanResult c |},
              [EvStop identifier; EvDelete identifier]))
  \/ (exists old e,
        Healthchecks c !! identifier = Some old
        /\ (Stop old).1 = Some e
        /\ removeCheck identifier c
           = (Some ("Fail to stop healthcheck " +:+ HName old +:+ ": " +:+ e),
              {| Healthchecks := <[identifier := (Stop old).2]> (Healthchecks c);
                 ChanResult := ChanResult c |},
              [EvStop identifier])).
Proof.
  unfold removeCheck. destruct (Healthchecks c !! identifier) as [old|] eqn:Hold.
  - pose proof (HName_Stop old) as Hn.
    destruct (Stop old) as [[e|] stopped] eqn:HS; simpl in *.
    + right. right. exists old, e. by rewrite HS, Hn.
    + right. left. exists old. by rewrite HS.
  - by left.
Qed.

(** [AddCheck] returns [nil] exactly when [Initialize] succeeds, the
    resident probe of that name, if any, stops cleanly, and [Start]
    succeeds. *)
Theorem AddCheck_succeeds_iff h c :
  (AddCheck h c).1.1 = None
  <-> (Initialize h).1 = None
      /\ (forall old, Healthchecks c !! HName h = Some old -> (Stop old).1 = None)
      /\ (Start (ChanResult c) (Initialize h).2).1 = None.
Proof.
  unfold AddCheck. pose proof (HName_Initialize h) as Hn1.
  destruct (Initialize h) as [[e|] h1]; simpl in *.
  { split; [done|]. by intros [? _]. }
  rewrite Hn1.
  destruct (removeCheck_cases (HName h) c)
    as [[Hnone ->] | [(old & Hold & Hstop & ->) | (old & e & Hold & Hstop & ->)]];
    simpl.
  - destruct (Start (ChanResult c) h1) as [[e|] h2]; simpl.
    + split; [done|]. by intros (_ & _ & ?).
    + split; [|done]. intros _. split_and!; try done. intros old. by rewrite Hnone.
  - destruct (Start (ChanResult c) h1) as [[e|] h2]; simpl.
    + split; [done|]. by intros (_ & _ & ?).
    + split; [|done]. intros _. split_and!; try done.
      intros old'. rewrite Hold. by intros [= <-].
  - split; [done|]. intros (_ & Hall & _). specialize (Hall old Hold). congruence.
Qed.

(** What [AddCheck] returns, path by path: [Initialize] fails; the resident
    probe does not stop; [Start] fails; or the probe is registered. *)
Lemma AddCheck_cases h c :
  let removal :=
    match Healthchecks c !! HName h with
    | Some _ => [EvStop (HName h); EvDelete (HName h)]
    | None => []
    end in
  (exists e,
     (Initialize h).1 = Some e
     /\ AddCheck h c
        = (Some ("Fail to initialize healthcheck " +:+ HName h +:+ ": " +:+ e),
           c, [EvInitialize (HName h)]))
  \/ (exists old e,
        (Initialize h).1 = None
        /\ Healthchecks c !! HName h = Some old
        /\ (Stop old).1 = Some e
        /\ AddCheck h c
           = (Some ("Fail to stop existing healthcheck " +:+ HName h +:+ ": "
                    +:+ "Fail to stop healthcheck " +:+ HName old +:+ ": "
                    +:+ e),
              {| Healthchecks := <[HName h := (Stop old).2]> (Healthchecks c);
                 ChanResult := ChanResult c |},
              [EvInitialize (HName h); EvLock; EvStop (HName h); EvUnlock]))
  \/ (exists e,
        (Initialize h).1 = None
        /\ (Start (ChanResult c) (Initialize h).2).1 = Some e
        /\ AddCheck h c
           = (Some ("Fail to start healthcheck " +:+ HName h +:+ ": " +:+ e),
              {| Healthchecks := delete (HName h) (Healthchecks c);
                 ChanResult := ChanResult c |},
              [EvInitialize (HName h); EvLock] ++ removal
                ++ [EvStart (HName h); EvUnlock]))
  \/ ((Initialize h).1 = None
      /\ (Start (ChanResult c) (Initialize h).2).1 = None
      /\ AddCheck h c
         = (None,
            {| Healthchecks :=
                 <[HName h := (Start (ChanResult c) (Initialize h).2).2]>
                   (delete (HName h) (Healthchecks c));
               ChanResult := ChanResult c |},
            [EvInitialize (HName h); EvLock] ++ removal
              ++ [EvStart (HName h); EvInsert (HName h); EvUnlock])).
Proof.
  intros removal. subst removal. unfold AddCheck.
  pose proof (HName_Initialize h) as Hn1.
  destruct (Initialize h) as [[e|] h1]; simpl in *.
  { left. exists e. by rewrite Hn1. }
  rewrite Hn1. right.
  pose proof (HName_Start (ChanResult c) h1) as Hn2.
  destruct (removeCheck_cases (HName h) c)
    as [[Hnone Hrm] | [(old & Hold & Hstop & Hrm) | (old & e & Hold & Hstop & Hrm)]];
    rewrite Hrm; simpl.
  - rewrite Hnone, delete_id by done. right.
    destruct (Start (ChanResult c) h1) as [[e|] h2]; simpl in *;
      rewrite Hn2, Hn1.
    + left. exists e. by destruct c.
    + right. by destruct c.
  - rewrite Hold. right.
    destruct (Start (ChanResult c) h1) as [[e|] h2]; simpl in *;
      rewrite Hn2, Hn1.
    + left. by exists e.
    + by right.
  - left. by exists old, e.
Qed.

(** A call of [AddCheck] that fails registers nothing: the map is never
    written with the new probe, and the name stays unbound or bound to the
    probe that was resident, untouched or as its failed [Stop] left it. *)
Theorem AddCheck_failure_never_registers h c :
  (AddCheck h c).1.1 <> None ->
  (forall key, EvInsert key ∉ (AddCheck h c).2)
  /\ forall q,
       Healthchecks (AddCheck h c).1.2 !! HName h = Some q ->
       exists old,
         Healthchecks c !! HName h = Some old /\ (q = old \/ q = (Stop old).2).
Proof.
  intros Hfail.
  destruct (AddCheck_cases h c)
    as [(e & _ & Hrun)
       | [(old & e & _ & Hold & _ & Hrun)
         | [(e & _ & _ & Hrun) | (_ & _ & Hrun)]]];
    rewrite Hrun in Hfail |- *; simpl in Hfail |- *; try done.
  - split.
    + intros key [=]%list_elem_of_singleton.
    + intros q Hq. exists q. by split; [|left].
  - split.
    + intros key Hin. repeat (apply elem_of_cons in Hin as [[=]|Hin]).
      by apply elem_of_nil in Hin.
    + intros q. rewrite lookup_insert_eq. intros [= <-]. exists old.
      by split; [|right].
  - split.
    + intros key Hin. destruct (Healthchecks c !! HName h);
        repeat (apply elem_of_cons in Hin as [[=]|Hin]);
        by apply elem_of_nil in Hin.
    + intros q. by rewrite lookup_delete_eq.
Qed.

(** [AddCheck] concerns one name: on every path the probes resident under
    other names, and the channel, are as they were. *)
Theorem AddCheck_touches_one_name h c :
  ChanResult (AddCheck h c).1.2 = ChanResult c
  /\ forall key,
       key <> HName h ->
       Healthchecks (AddCheck h c).1.2 !! key = Healthchecks c !! key.
Proof.
  destruct (AddCheck_cases h c)
    as [(e & _ & Hrun)
       | [(old & e & _ & Hold & _ & Hrun)
         | [(e & _ & _ & Hrun) | (_ & _ & Hrun)]]];
    rewrite Hrun; simpl; (split; [done|]); intros key Hne.
  - done.
  - by rewrite lookup_insert_ne.
  - by rewrite lookup_delete_ne.
  - by rewrite lookup_insert_ne, lookup_delete_ne.
Qed.

Lemma Stop_range_lock_respected order m :
  lock_respected true ((Stop_range order m).2 ++ [EvUnlock]) = true.
Proof.
  revert m. induction order as [|key rest IH]; intros m; simpl; [done|].
  destruct (m !! key) as [q|]; [|apply IH].
  destruct (Stop q) as [[e|] stopped]; [done|].
  specialize (IH (<[key := stopped]> m)).
  by destruct (Stop_range rest (<[key := stopped]> m)) as [[err m'] evs].
Qed.

(** The three operations keep the lock discipline on every path, also the
    failing ones: probes are stopped and started and the map is written only
    under the writer lock, [Initialize] runs before the lock is taken, and
    the lock is free when the call returns. *)
Theorem component_respects_lock c :
  (forall h, lock_respected false (AddCheck h c).2 = true)
  /\ (forall identifier, lock_respected false (RemoveCheck identifier c).2 = true)
  /\ (forall order, lock_respected false (StopComponent order c).2 = true).
Proof.
  split_and!.
  - intros h.
    destruct (AddCheck_cases h c)
      as [(e & _ & Hrun)
         | [(old & e & _ & Hold & _ & Hrun)
           | [(e & _ & _ & Hrun) | (_ & _ & Hrun)]]];
      rewrite Hrun; simpl; try done;
      by destruct (Healthchecks c !! HName h).
  - intros identifier. unfold RemoveCheck.
    destruct (removeCheck_cases identifier c)
      as [[_ ->] | [(old & _ & _ & ->) | (old & e & _ & _ & ->)]]; done.
  - intros order. unfold StopComponent.
    pose proof (Stop_range_lock_respected order (Healthchecks c)) as Hloop.
    by destruct (Stop_range order (Healthchecks c)) as [[err m'] evs].
Qed.

(** Removing twice is removing once: after a [RemoveCheck] that returned
    [nil], the name is unbound and a further [RemoveCheck] of it returns
    [nil] without calling any probe or writing the map. *)
Theorem RemoveCheck_twice identifier c :
  (RemoveCheck identifier c).1.1 = None ->
  Healthchecks (RemoveCheck identifier c).1.2 !! identifier = None
  /\ RemoveCheck identifier (RemoveCheck identifier c).1.2
     = (None, (RemoveCheck identifier c).1.2, [EvLock; EvUnlock]).
Proof.
  assert (Hrun : RemoveCheck identifier c
                 = ((removeCheck identifier c).1,
                    [EvLock] ++ (removeCheck identifier c).2 ++ [EvUnlock])).
  { unfold RemoveCheck. by destruct (removeCheck identifier c) as [[err c'] evs]. }
  rewrite Hrun. simpl.
  destruct (removeCheck_cases identifier c)
    as [[Hnone Hrm] | [(old & _ & _ & Hrm) | (old & e & _ & _ & Hrm)]];
    rewrite Hrm; simpl; try done; intros _.
  - split; [done|]. unfold RemoveCheck. by rewrite Hrm.
  - split; [apply lookup_delete_eq|]. unfold RemoveCheck, removeCheck. simpl.
    by rewrite lookup_delete_eq.
Qed.

(** Adding then removing: when [AddCheck] registered a probe and that probe
    stops cleanly, [RemoveCheck] of its name leaves the map as it was before
    the [AddCheck], less that name. *)
Theorem AddCheck_then_RemoveCheck h c c' evs :
  AddCheck h c = (None, c', evs) ->
  (Stop (Start (ChanResult c) (Initialize h).2).2).1 = None ->
  RemoveCheck (HName h) c'
  = (None,
     {| Healthchecks := delete (HName h) (Healthchecks c);
        ChanResult := ChanResult c |},
     [EvLock; EvStop (HName h); EvDelete (HName h); EvUnlock]).
Proof.
  intros Hadd Hstop.
  destruct (AddCheck_cases h c)
    as [(e & _ & Hrun)
       | [(old & e & _ & Hold & _ & Hrun)
         | [(e & _ & _ & Hrun) | (_ & _ & Hrun)]]];
    rewrite Hrun in Hadd; try done.
  injection Hadd as <- <-. unfold RemoveCheck, removeCheck. simpl.
  rewrite lookup_insert_eq.
  destruct (Stop (Start (ChanResult c) (Initialize h).2).2) as [es stopped].
  simpl in Hstop. subst es. simpl.
  by rewrite delete_insert_eq, delete_delete_eq.
Qed.

Lemma Stop_range_dom order m : dom (Stop_range order m).1.2 = dom m.
Proof.
  revert m. induction order as [|key rest IH]; intros m; simpl; [done|].
  destruct (m !! key) as [q|] eqn:Hq; [|apply IH].
  assert (Hdom : dom (<[key := (Stop q).2]> m) = dom m).
  { rewrite dom_insert_L. apply elem_of_dom_2 in Hq. set_solver. }
  destruct (Stop q) as [[e|] stopped]; simpl in *; [done|].
  specialize (IH (<[key := stopped]> m)).
  destruct (Stop_range rest (<[key := stopped]> m)) as [[err m'] evs].
  simpl in *. by rewrite IH.
Qed.

(** [Stop] of the component removes nothing: whatever the order and whether
    or not a probe fails to stop, the same names are resident afterwards. *)
Theorem StopComponent_keeps_probes_resident order c :
  dom (Healthchecks (StopComponent order c).1.2) = dom (Healthchecks c)
  /\ ChanResult (StopComponent order c).1.2 = ChanResult c.
Proof.
  unfold StopComponent.
  pose proof (Stop_range_dom order (Healthchecks c)) as Hdom.
  by destruct (Stop_range order (Healthchecks c)) as [[err m'] evs].
Qed.

Lemma keyed_write m key q :
  keyed m -> m !! key = Some q -> keyed (<[key := (Stop q).2]> m).
Proof.
  intros Hm Hq j p. rewrite lookup_insert. case_decide as Hj.
  - intros [= <-]. rewrite HName_Stop. subst j. by apply Hm.
  - apply Hm.
Qed.

Lemma keyed_Stop_range order m : keyed m -> keyed (Stop_range order m).1.2.
Proof.
  revert m. induction order as [|key rest IH]; intros m Hm; simpl; [done|].
  destruct (m !! key) as [q|] eqn:Hq; [|by apply IH].
  pose proof (keyed_write m key q Hm Hq) as Hw.
  destruct (Stop q) as [[e|] stopped]; simpl in *; [done|].
  specialize (IH (<[key := stopped]> m) Hw).
  by destruct (Stop_range rest (<[key := stopped]> m)) as [[err m'] evs].
Qed.

(** In every component a program can reach from [New], each resident probe
    is stored under its own name; so no two resident probes share a name. *)
Theorem reachable_keyed c :
  reachable c ->
  keyed (Healthchecks c)
  /\ forall k1 k2 q1 q2,
       Healthchecks c !! k1 = Some q1 ->
       Healthchecks c !! k2 = Some q2 ->
       HName q1 = HName q2 -> k1 = k2 /\ q1 = q2.
Proof.
  intros Hreach. assert (Hk : keyed (Healthchecks c)).
  { induction Hreach as [ch | h c _ IH | identifier c _ IH | order c _ IH].
    - intros k q. simpl. by rewrite lookup_empty.
    - destruct (AddCheck_cases h c)
        as [(e & _ & Hrun)
           | [(old & e & _ & Hold & _ & Hrun)
             | [(e & _ & _ & Hrun) | (_ & _ & Hrun)]]];
        rewrite Hrun; simpl.
      + done.
      + by apply keyed_write.
      + by apply keyed_delete.
      + pose proof (HName_Start (ChanResult c) (Initialize h).2) as Hn2.
        rewrite HName_Initialize in Hn2. rewrite <- Hn2 at 1.
        by apply keyed_insert, keyed_delete.
    - unfold RemoveCheck.
      destruct (removeCheck_cases identifier c)
        as [[_ ->] | [(old & _ & _ & ->) | (old & e & Hold & _ & ->)]]; simpl.
      + done.
      + by apply keyed_delete.
      + by apply keyed_write.
    - unfold StopComponent.
      pose proof (keyed_Stop_range order (Healthchecks c) IH) as Hloop.
      by destruct (Stop_range order (Healthchecks c)) as [[err m'] evs]. }
  split; [done|]. intros k1 k2 q1 q2 Hq1 Hq2 Hname.
  assert (k1 = k2) as -> by (rewrite <- (Hk _ _ Hq1), <- (Hk _ _ Hq2); done).
  split; [done|]. congruence.
Qed.

End ComponentRuns.

(** A failed replacement of ["web"]: the driver of the new probe does not
    start. *)
Lemma AddCheck_failure_never_registers_witness :
  (Registry.AddCheck (Registry.unstartable "web" "no driver")
     Registry.one_probe).1.1 <> None
  /\ Registry.EvInsert "web"
     ∉ (Registry.AddCheck (Registry.unstartable "web" "no driver")
          Registry.one_probe).2.
Proof.
  assert (Hfail : (Registry.AddCheck (Registry.unstartable "web" "no driver")
                     Registry.one_probe).1.1 <> None) by done.
  split; [exact Hfail|].
  exact (proj1 (AddCheck_failure_never_registers (H := Registry.Mock)
                  (Registry.unstartable "web" "no driver") Registry.one_probe
                  Hfail) "web").
Defined.

(** Adding ["api"] beside ["web"] leaves ["web"] alone. *)
Lemma AddCheck_touches_one_name_witness :
  Registry.Healthchecks
    (Registry.AddCheck (Registry.good "api") Registry.one_probe).1.2 !! "web"
  = Registry.Healthchecks Registry.one_probe !! "web".
Proof.
  apply (proj2 (AddCheck_touches_one_name (H := Registry.Mock)
                  (Registry.good "api") Registry.one_probe)).
  discriminate.
Defined.

(** Removing ["web"] twice. *)
Lemma RemoveCheck_twice_witness :
  (Registry.RemoveCheck "web" Registry.one_probe).1.1 = None
  /\ Registry.RemoveCheck "web"
       (Registry.RemoveCheck "web" Registry.one_probe).1.2
     = (None, (Registry.RemoveCheck "web" Registry.one_probe).1.2,
        [Registry.EvLock; Registry.EvUnlock]).
Proof.
  split; [reflexivity|].
  apply (RemoveCheck_twice (H := Registry.Mock) "web" Registry.one_probe).
  reflexivity.
Defined.

(** Adding ["api"] beside ["web"], then removing it. *)
Lemma AddCheck_then_RemoveCheck_witness :
  (Registry.AddCheck (Registry.good "api") Registry.one_probe).1.1 = None
  /\ Registry.Healthchecks
       (Registry.RemoveCheck "api"
          (Registry.AddCheck (Registry.good "api") Registry.one_probe).1.2).1.2
     = delete "api" (Registry.Healthchecks Registry.one_probe).
Proof.
  split; [reflexivity|].
  assert (Hadd : Registry.AddCheck (Registry.good "api") Registry.one_probe
                 = (None,
                    (Registry.AddCheck (Registry.good "api")
                       Registry.one_probe).1.2,
                    (Registry.AddCheck (Registry.good "api")
                       Registry.one_probe).2)) by reflexivity.
  pose proof (AddCheck_then_RemoveCheck (H := Registry.Mock) _ _ _ _ Hadd
                eq_refl) as Hrm.
  exact (f_equal (fun r => Registry.Healthchecks r.1.2) Hrm).
Defined.

(** A component built by two calls of [AddCheck] on [New]. *)
Lemma reachable_keyed_witness :
  Runs.reachable
    (Registry.AddCheck (Registry.good "api")
       (Registry.AddCheck (Registry.good "web") (Registry.New 0%nat)).1.2).1.2
  /\ Registry.keyed
       (Registry.Healthchecks
          (Registry.AddCheck (Registry.good "api")
             (Registry.AddCheck (Registry.good "web")
                (Registry.New 0%nat)).1.2).1.2).
Proof.
  assert (Hreach :
            Runs.reachable
              (Registry.AddCheck (Registry.good "api")
                 (Registry.AddCheck (Registry.good "web")
                    (Registry.New 0%nat)).1.2).1.2).
  { do 2 apply Runs.reachable_AddCheck. apply Runs.reachable_New. }
  split; [exact Hreach|].
  exact (proj1 (reachable_keyed _ Hreach)).
Defined.

(** ** More on the DNS probe *)

Section DnsRunsFacts.
Import Dns DnsRuns.

(** A configuration that [ValidateDNSConfig] accepts can be started:
    [NewTicker] gets a positive interval, and [Start] returns [nil] with the
    ticker running at the configured interval and one goroutine waiting at
    its [select]. *)
Theorem Start_after_validation config chanResult :
  DnsConfig.ValidateDNSConfig config = None ->
  Start chanResult (fresh config)
  = Returns None
      {| probe := {| ChanResult := Some chanResult; Config := config;
                     URL := "";
                     Tick := Some {| period := DnsConfig.Interval config;
                                     active := true; C := false |};
                     t := {| dying := false; dead := false |} |};
         drivers := [AtSelect];
         sink := [] |}.
Proof.
  unfold DnsConfig.ValidateDNSConfig, Start, fresh. simpl.
  destruct (DnsConfig.Name config =? "")%string; [done|].
  destruct (DnsConfig.Domain config =? "")%string; [done|].
  destruct (Z.ltb_spec (DnsConfig.Interval config) 5) as [|Hge]; [done|].
  intros _. destruct (Z.leb_spec (DnsConfig.Interval config) 0); [lia|done].
Qed.

Lemma step_keeps_Config s w w' :
  step s w = Some w' -> Config (probe w') = Config (probe w).
Proof.
  destruct s; simpl;
    repeat (match goal with
            | |- context [match ?x with _ => _ end] => destruct x
            end; try done);
    by intros [= <-].
Qed.

Lemma run_started schedule w w' :
  started w -> run schedule w = Some w' -> started w'.
Proof.
  revert w. induction schedule as [|s rest IH]; intros w Hst; simpl.
  - by intros [= <-].
  - destruct (step s w) as [w1|] eqn:Hstep; [|done].
    apply IH. by eapply started_step.
Qed.

Lemma started_positive_interval w :
  started w -> 0 < DnsConfig.Interval (Config (probe w)).
Proof.
  induction 1 as [config ch w Hstart | s w w' _ IH Hstep
                 | w h _ IH Hstop | w err h _ IH Hstop].
  - unfold Start, fresh in Hstart. simpl in Hstart.
    destruct (Z.leb_spec (DnsConfig.Interval config) 0); [done|].
    by injection Hstart as <-.
  - by rewrite (step_keeps_Config _ _ _ Hstep).
  - unfold Stop in Hstop. destruct (Tick (probe w)); [|done].
    by destruct (dead (t (probe w))); simplify_eq/=.
  - unfold Stop in Hstop. destruct (Tick (probe w)); [|done].
    by destruct (dead (t (probe w))); simplify_eq/=.
Qed.

(** What a call of [Stop] that returned leaves behind. *)
Lemma StopCall_returned schedule w err w' :
  started w ->
  StopCall schedule w = Returns err w' ->
  started w' /\ dead (t (probe w')) = true /\ stop_requested (probe w').
Proof.
  intros Hst. unfold StopCall.
  destruct (Stop (probe w)) as [err0 h|why|h] eqn:Hstop; [| done |].
  - intros [= <- <-]. pose proof (started_Stop_returns _ _ _ Hst Hstop).
    apply Stop_shape in Hstop as (_ & _ & Hdead & Hreq). done.
  - pose proof (started_Stop_waits _ _ Hst Hstop) as Hst'.
    apply Stop_shape in Hstop as (_ & _ & Hreq).
    destruct (run schedule (with_probe w h)) as [w1|] eqn:Hrun; [|done].
    destruct (dead (t (probe w1))) eqn:Hdead; [|done]. intros [= <- <-].
    split_and!; [by eapply run_started | done |].
    by eapply run_keeps_stop_requested.
Qed.

(** A probe that was stopped cannot be started again: once a [Stop] has
    returned, the tomb is dead and [Start] panics in [t.Go]. *)
Theorem Start_after_Stop_panics schedule w err w' chanResult :
  started w ->
  StopCall schedule w = Returns err w' ->
  Start chanResult w'
  = Panics "tomb.Go called after all goroutines terminated".
Proof.
  intros Hst Hstop.
  destruct (StopCall_returned _ _ _ _ Hst Hstop) as (Hst' & Hdead & _).
  pose proof (started_positive_interval _ Hst') as Hpos.
  unfold Start. rewrite Hdead.
  by destruct (Z.leb_spec (DnsConfig.Interval (Config (probe w'))) 0); [lia|].
Qed.

(** Once a [Stop] has returned nothing moves any more: the ticker feeds no
    tick, the goroutine has returned, and no Result reaches the channel. *)
Theorem nothing_moves_after_Stop schedule w err w' :
  started w ->
  StopCall schedule w = Returns err w' ->
  (forall s, step s w' = None)
  /\ forall schedule' w'', run schedule' w' = Some w'' -> sink w'' = sink w'.
Proof.
  intros Hst Hstop.
  destruct (StopCall_returned _ _ _ _ Hst Hstop)
    as (Hst' & Hdead & p & c & Htick & _).
  destruct (started_is_started_once _ Hst') as (_ & d & Hd & Hdd).
  rewrite Hdead in Hdd. destruct d; try done.
  assert (Hnone : forall s, step s w' = None).
  { intros [|[|i] lookup now|[|i]|[|i]]; simpl; rewrite ?Htick, ?Hd; done. }
  split; [done|]. intros [|s rest] w''; simpl.
  - by intros [= <-].
  - by rewrite Hnone.
Qed.

Lemma step_sink s w w' :
  step s w = Some w' ->
  sink w' = sink w \/ exists result, sink w' = sink w ++ [result].
Proof.
  destruct s; simpl;
    repeat (match goal with
            | |- context [match ?x with _ => _ end] => destruct x
            end; try done);
    intros [= <-]; simpl; eauto.
Qed.

(** The channel only ever takes Results at its end: whatever the goroutines
    and the ticker do, the Results delivered so far stay delivered, in their
    order, and each step adds at most one. *)
Theorem sink_only_grows schedule w w' :
  run schedule w = Some w' ->
  sink w `prefix_of` sink w'
  /\ (length (sink w') <= length (sink w) + length schedule)%nat
  /\ Config (probe w') = Config (probe w).
Proof.
  revert w. induction schedule as [|s rest IH]; intros w; simpl.
  - intros [= <-]. split_and!; [done|lia|done].
  - destruct (step s w) as [w1|] eqn:Hstep; [|done]. intros Hrun.
    destruct (IH _ Hrun) as (Hpre & Hlen & Hcfg).
    rewrite Hcfg, (step_keeps_Config _ _ _ Hstep).
    destruct (step_sink _ _ _ Hstep) as [Hs | [result Hs]]; rewrite Hs in *.
    + split_and!; [done|lia|done].
    + split_and!; [|rewrite length_app in Hlen; simpl in Hlen; lia|done].
      etrans; [|exact Hpre]. by apply prefix_app_r.
Qed.

Lemma NewResult_emitted_by h lookup now :
  emitted_by (Config h) (Registry.NewResult h (Execute h lookup) now).
Proof.
  destruct lookup as [e|]; (split; [done|]); simpl.
  - right. split; [done|]. by exists e.
  - by left.
Qed.

(** Every Result a started probe has delivered carries the name of its
    configuration, and either reports success with the message ["success"]
    or reports failure with the wrapped lookup error. *)
Theorem delivered_Results_shape w :
  started w -> Forall (emitted_by (Config (probe w))) (sink w).
Proof.
  intros Hst.
  assert (Hinv : Forall (emitted_by (Config (probe w))) (sink w)
                 /\ forall result, AtSend result ∈ drivers w ->
                      emitted_by (Config (probe w)) result);
    [|by destruct Hinv].
  induction Hst as [config ch w Hstart | s w w' _ [IHs IHd] Hstep
                   | w h _ IH Hstop | w err h _ IH Hstop].
  - unfold Start, fresh in Hstart. simpl in Hstart.
    destruct (DnsConfig.Interval config <=? 0); [done|].
    injection Hstart as <-. simpl. split; [done|].
    by intros result [=]%list_elem_of_singleton.
  - rewrite (step_keeps_Config _ _ _ Hstep).
    destruct s as [|i lookup now|i|i]; simpl in Hstep.
    + destruct (Tick (probe w)) as [tick|]; [|done].
      destruct (active tick); [|done]. by injection Hstep as <-.
    + destruct (drivers w !! i) as [[]|] eqn:Hi; try done.
      destruct (Tick (probe w)) as [tick|]; [|done].
      destruct (C tick); [|done]. injection Hstep as <-. simpl.
      split; [done|]. intros result Hin.
      apply list_elem_of_lookup in Hin as [j Hj].
      destruct (decide (i = j)) as [->|Hne].
      * rewrite list_lookup_insert_eq in Hj by by eapply lookup_lt_Some.
        injection Hj as <-. apply NewResult_emitted_by.
      * rewrite list_lookup_insert_ne in Hj by done.
        apply IHd, list_elem_of_lookup. by exists j.
    + destruct (drivers w !! i) as [[]|] eqn:Hi; try done.
      destruct (dying (t (probe w))); [|done]. injection Hstep as <-. simpl.
      split; [done|]. intros result Hin.
      apply list_elem_of_lookup in Hin as [j Hj].
      destruct (decide (i = j)) as [->|Hne].
      * rewrite list_lookup_insert_eq in Hj by by eapply lookup_lt_Some. done.
      * rewrite list_lookup_insert_ne in Hj by done.
        apply IHd, list_elem_of_lookup. by exists j.
    + destruct (drivers w !! i) as [[|r|]|] eqn:Hi; try done.
      injection Hstep as <-. simpl. split.
      * apply Forall_app. split; [done|]. apply Forall_singleton.
        apply IHd, list_elem_of_lookup. by exists i.
      * intros result Hin. apply list_elem_of_lookup in Hin as [j Hj].
        destruct (decide (i = j)) as [->|Hne].
        -- rewrite list_lookup_insert_eq in Hj by by eapply lookup_lt_Some.
           done.
        -- rewrite list_lookup_insert_ne in Hj by done.
           apply IHd, list_elem_of_lookup. by exists j.
  - unfold Stop in Hstop. destruct (Tick (probe w)); [|done].
    by destruct (dead (t (probe w))); simplify_eq/=.
  - unfold Stop in Hstop. destruct (Tick (probe w)); [|done].
    by destruct (dead (t (probe w))); simplify_eq/=.
Qed.

Lemma sending_insert ds i d x :
  ds !! i = Some d ->
  (sending (<[i := x]> ds) + (if is_AtSend d then 1 else 0)
   = sending ds + (if is_AtSend x then 1 else 0))%nat.
Proof.
  revert i. induction ds as [|a ds IH]; intros [|i]; simpl; try done.
  - intros [= ->]. lia.
  - intros Hi. specialize (IH _ Hi). lia.
Qed.

(** After [Stop] was called the Results are counted: each step keeps the sum
    of the Results delivered and those under way (a tick still waiting in
    the ticker's channel, a goroutine inside a send), so no more than those
    under way are delivered from then on. *)
Theorem emission_after_Stop_is_bounded schedule w w' :
  stop_requested (probe w) ->
  run schedule w = Some w' ->
  (length (sink w') + in_flight w' = length (sink w) + in_flight w)%nat
  /\ (length (sink w') <= length (sink w) + in_flight w)%nat.
Proof.
  intros Hreq Hrun.
  assert (Heq : (length (sink w') + in_flight w'
                 = length (sink w) + in_flight w)%nat); [|split; [done|lia]].
  revert w Hreq Hrun. induction schedule as [|s rest IH]; intros w Hreq; simpl.
  - by intros [= <-].
  - destruct (step s w) as [w1|] eqn:Hstep; [|done]. intros Hrun.
    rewrite (IH w1 (step_keeps_stop_requested _ _ _ Hstep Hreq) Hrun).
    clear IH Hrun. destruct Hreq as (p & c & Htick & _).
    unfold in_flight. destruct s as [|i lookup now|i|i]; simpl in Hstep;
      rewrite ?Htick in Hstep; simpl in Hstep; try done.
    + destruct (drivers w !! i) as [[]|] eqn:Hi; try done.
      destruct c; [|done]. injection Hstep as <-. simpl. rewrite Htick. simpl.
      pose proof (sending_insert _ _ _
                    (AtSend (Registry.NewResult (probe w)
                               (Execute (probe w) lookup) now)) Hi) as Hs.
      simpl in Hs. lia.
    + destruct (drivers w !! i) as [[]|] eqn:Hi; try done.
      destruct (dying (t (probe w))); [|done]. injection Hstep as <-. simpl.
      rewrite Htick.
      pose proof (sending_insert _ _ _ Returned Hi) as Hs. simpl in Hs. lia.
    + destruct (drivers w !! i) as [[|r|]|] eqn:Hi; try done.
      injection Hstep as <-. simpl. rewrite Htick, length_app. simpl.
      pose proof (sending_insert _ _ _ AtSelect Hi) as Hs. simpl in Hs. lia.
Qed.

End DnsRunsFacts.

(** The probe of localhost is accepted and started. *)
Lemma Start_after_validation_witness :
  DnsConfig.ValidateDNSConfig Dns.every_5s = None
  /\ Dns.Start 0%nat (Dns.fresh Dns.every_5s) = Dns.Returns None Dns.running_world.
Proof.
  split; [reflexivity|].
  exact (Start_after_validation Dns.every_5s 0%nat eq_refl).
Defined.

(** The running probe, stopped while its goroutine waits at the [select]. *)
Lemma Start_after_Stop_panics_witness :
  Dns.started Dns.running_world
  /\ exists w',
       Dns.StopCall [Dns.SelectDying 0] Dns.running_world = Dns.Returns None w'
       /\ Dns.Start 1%nat w'
          = Dns.Panics "tomb.Go called after all goroutines terminated".
Proof.
  split; [exact running_world_started|]. eexists. split; [reflexivity|].
  exact (Start_after_Stop_panics [Dns.SelectDying 0%nat] Dns.running_world
           None _ 1%nat running_world_started eq_refl).
Defined.

(** The same stopped probe: the ticker cannot fire any more. *)
Lemma nothing_moves_after_Stop_witness :
  Dns.started Dns.running_world
  /\ exists w',
       Dns.StopCall [Dns.SelectDying 0] Dns.running_world = Dns.Returns None w'
       /\ Dns.step Dns.TimerFires w' = None.
Proof.
  split; [exact running_world_started|]. eexists. split; [reflexivity|].
  exact (proj1 (nothing_moves_after_Stop [Dns.SelectDying 0%nat]
                  Dns.running_world None _ running_world_started eq_refl)
           Dns.TimerFires).
Defined.

(** One tick of the running probe, with a lookup that succeeds, delivered. *)
Lemma sink_only_grows_witness :
  exists w',
    Dns.run [Dns.TimerFires; Dns.SelectTick 0 None 100; Dns.SinkAccepts 0]
      Dns.running_world = Some w'
    /\ Dns.sink w' = [Registry.mkResult "d1" true 100 "success"]
    /\ Dns.sink Dns.running_world `prefix_of` Dns.sink w'.
Proof.
  eexists. split; [reflexivity|]. split; [reflexivity|].
  exact (proj1 (sink_only_grows
                  [Dns.TimerFires; Dns.SelectTick 0%nat None 100;
                   Dns.SinkAccepts 0%nat] Dns.running_world _ eq_refl)).
Defined.

(** The probe whose [Stop] is waiting, after its Result was taken. *)
Lemma delivered_Results_shape_witness :
  exists w',
    Dns.step (Dns.SinkAccepts 0) Dns.blocked_world = Some w'
    /\ Dns.started w'
    /\ Dns.sink w' = [Dns.failed_lookup]
    /\ Forall (DnsRuns.emitted_by Dns.every_5s) (Dns.sink w').
Proof.
  eexists. split; [reflexivity|].
  assert (Hst : Dns.started
                  {| Dns.probe := Dns.probe Dns.blocked_world;
                     Dns.drivers := [Dns.AtSelect];
                     Dns.sink := [Dns.failed_lookup] |}).
  { apply (Dns.started_step (Dns.SinkAccepts 0%nat) Dns.blocked_world);
      [exact blocked_world_started | reflexivity]. }
  split; [exact Hst|]. split; [reflexivity|].
  exact (delivered_Results_shape _ Hst).
Defined.

(** The probe whose [Stop] is waiting has one Result under way; it is
    delivered and the goroutine returns. *)
Lemma emission_after_Stop_is_bounded_witness :
  Dns.stop_requested (Dns.probe Dns.blocked_world)
  /\ DnsRuns.in_flight Dns.blocked_world = 1%nat
  /\ exists w',
       Dns.run [Dns.SinkAccepts 0; Dns.SelectDying 0] Dns.blocked_world
       = Some w'
       /\ (length (Dns.sink w') <= 0 + 1)%nat.
Proof.
  assert (Hreq : Dns.stop_requested (Dns.probe Dns.blocked_world)).
  { by exists (5 * Second), false. }
  split; [exact Hreq|]. split; [reflexivity|]. eexists.
  split; [reflexivity|].
  exact (proj2 (emission_after_Stop_is_bounded
                  [Dns.SinkAccepts 0%nat; Dns.SelectDying 0%nat]
                  Dns.blocked_world _ Hreq eq_refl)).
Defined.

(** ** More on [Execute] *)

(** A negative timeout passes [ValidateTCPConfig], which only refuses zero;
    the context of [Execute] is then expired from the start and every dial
    fails, however fast the peer answers. *)
Theorem Tcp_negative_timeout_always_fails (c : Tcp.TCPHealthcheckConfiguration)
    (URL : string) (d : Tcp.Dial) :
  Tcp.Name c <> "" ->
  Tcp.Target c <> "" ->
  Tcp.Port c <> 0%N ->
  Tcp.Timeout c < 0 ->
  2 * Second <= Tcp.Interval c ->
  0 <= Tcp.answers_after d ->
  Tcp.ValidateTCPConfig c = None /\ is_err (Tcp.Execute c URL d) = true.
Proof.
  intros Hname Htarget Hport Htimeout Hinterval Hanswer.
  pose proof (eq_refl : Second = 1000000000) as Hsecond. split.
  - unfold Tcp.ValidateTCPConfig.
    destruct (String.eqb_spec (Tcp.Name c) ""); [done|].
    destruct (String.eqb_spec (Tcp.Target c) ""); [done|].
    destruct (N.eqb_spec (Tcp.Port c) 0); [done|].
    destruct (Z.eqb_spec (Tcp.Timeout c) 0); [lia|].
    destruct (Z.ltb_spec (Tcp.Interval c) (2 * Second)); [lia|].
    destruct (Z.ltb_spec (Tcp.Interval c) (Tcp.Timeout c)); [lia|done].
  - unfold Tcp.Execute, Tcp.Execute_deadline.
    by destruct (Z.leb_spec (Tcp.Timeout c) (Tcp.answers_after d)); [|lia].
Qed.

(** A validated probe with a timeout of minus one second, and a peer that
    answers at once. *)
Lemma Tcp_negative_timeout_always_fails_witness :
  Tcp.ValidateTCPConfig
    (Tcp.mkConfig "t1" "" "127.0.0.1" 80 (- Second) (2 * Second) false) = None
  /\ is_err (Tcp.Execute
               (Tcp.mkConfig "t1" "" "127.0.0.1" 80 (- Second) (2 * Second) false)
               "127.0.0.1:80"
               (Tcp.mkDial 0 None "dial tcp 127.0.0.1:80: i/o timeout" None)) = true.
Proof.
  apply (Tcp_negative_timeout_always_fails
           (Tcp.mkConfig "t1" "" "127.0.0.1" 80 (- Second) (2 * Second) false)
           "127.0.0.1:80"
           (Tcp.mkDial 0 None "dial tcp 127.0.0.1:80: i/o timeout" None));
    (discriminate || (vm_compute; discriminate) || reflexivity).
Defined.

(** The command probe's [Execute] and the deadline it computes,
    [time.Duration(Timeout)*time.Second] in int64. An empty command, and a
    command that cannot be resolved, fail with that error whatever the
    deadline. For a timeout from 1 ns to 9223372036 ns the deadline is the
    exact product. For a timeout from 9223372037 ns to 18446744073 ns the
    product wraps to a negative duration, and every command that could be
    resolved fails with the context's error before its process starts. *)
Theorem Command_deadline_over_int64 (directives : string -> string)
    (c : Command.CommandHealthcheckConfiguration) :
  (forall p,
     Command.Command c = "" ->
     Command.Execute directives c p
     = Some "The command failed, stderr=: exec: no command")
  /\ (forall p e,
        Command.Command c <> "" ->
        Command.lookup_err p = Some e ->
        Command.Execute directives c p
        = Some ("The command failed, stderr=: " +:+ e))
  /\ (0 < Command.Timeout c <= 9223372036 ->
      Command.Execute_deadline c = Command.Timeout c * Second)
  /\ (9223372037 <= Command.Timeout c <= 18446744073 ->
      Command.Execute_deadline c < 0
      /\ forall p,
           Command.Command c <> "" ->
           Command.lookup_err p = None ->
           Command.Execute directives c p
           = Some "The command failed, stderr=: context deadline exceeded").
Proof.
  split_and!.
  - intros p Hempty. unfold Command.Execute. by rewrite Hempty.
  - intros p e Hcommand Hlookup. unfold Command.Execute.
    destruct (String.eqb_spec (Command.Command c) ""); [done|].
    by rewrite Hlookup.
  - unfold Command.Execute_deadline, wrap64, Second.
    change (2 ^ 63) with 9223372036854775808.
    change (2 ^ 64) with 18446744073709551616.
    intros Hrange. rewrite Z.mod_small by lia. lia.
  - unfold Command.Execute, Command.Execute_deadline, wrap64, Second.
    change (2 ^ 63) with 9223372036854775808.
    change (2 ^ 64) with 18446744073709551616.
    set (product := Command.Timeout c * 1000000000).
    intros Hrange.
    assert (Hneg : (product + 9223372036854775808) mod 18446744073709551616
                   - 9223372036854775808 < 0).
    { replace (product + 9223372036854775808)
        with ((product - 9223372036854775808) + 1 * 18446744073709551616)
        by lia.
      rewrite Z.mod_add by lia. rewrite Z.mod_small by lia. lia. }
    split; [exact Hneg|]. intros p Hcommand Hlookup.
    destruct (String.eqb_spec (Command.Command c) ""); [done|].
    rewrite Hlookup. simpl.
    by destruct (Z.leb_spec
                   ((product + 9223372036854775808) mod 18446744073709551616
                    - 9223372036854775808) 0); [|lia].
Qed.

(** The command probe with a timeout of fifteen seconds, [sleep] found and
    then not found. *)
Lemma Command_deadline_over_int64_witness :
  Command.Validate (Command.sleeper (15 * Second)) = None
  /\ Command.Execute id (Command.sleeper (15 * Second))
       (Command.mkProcess None None 0 0 "")
     = Some "The command failed, stderr=: context deadline exceeded"
  /\ Command.Execute id (Command.sleeper (15 * Second))
       (Command.mkProcess (Some Command.sleep_not_found) None 0 0 "")
     = Some ("The command failed, stderr=: " +:+ Command.sleep_not_found).
Proof.
  destruct (Command_deadline_over_int64 id (Command.sleeper (15 * Second)))
    as (_ & Hlookup & _ & Hwrap).
  split_and!.
  - reflexivity.
  - apply Hwrap.
    + vm_compute. split; discriminate.
    + discriminate.
    + reflexivity.
  - apply Hlookup.
    + discriminate.
    + reflexivity.
Defined.

(** ** The address of the TCP probe *)

Section TcpProbeFacts.
Import TcpProbe.

Lemma has_colon_app x y : has_colon (x +:+ y) = has_colon x || has_colon y.
Proof. induction x as [|a x IH]; simpl; [done|]. by rewrite IH, orb_assoc. Qed.

Lemma pretty_N_go_no_colon x s :
  has_colon s = false -> has_colon (pretty_N_go x s) = false.
Proof.
  revert s. induction (N.lt_wf_0 x) as [x _ IH]; intros s Hs.
  assert (x = 0 \/ 0 < x)%N as [->|Hpos] by lia.
  - by rewrite pretty_N_go_0.
  - rewrite pretty_N_go_step by done. apply IH; [by apply N.div_lt|].
    simpl. rewrite Hs. unfold pretty_N_char. by repeat case_match.
Qed.

Lemma pretty_N_no_colon (x : N) : has_colon (pretty x) = false.
Proof.
  unfold pretty, pretty_N. case_decide; [done|].
  by apply pretty_N_go_no_colon.
Qed.

(** A string is cut in one way only at its last colon. *)
Lemma split_at_last_colon a1 :
  forall a2 p1 p2,
    has_colon p1 = false -> has_colon p2 = false ->
    a1 +:+ String ":" p1 = a2 +:+ String ":" p2 -> a1 = a2 /\ p1 = p2.
Proof.
  induction a1 as [|x a1 IH]; intros [|y a2] p1 p2 H1 H2; simpl.
  - by intros [= ->].
  - intros [= <- ->]. rewrite has_colon_app in H1. simpl in H1.
    by destruct (has_colon a2).
  - intros [= -> <-]. rewrite has_colon_app in H2. simpl in H2.
    by destruct (has_colon a1).
  - intros [= -> Heq]. by destruct (IH _ _ _ H1 H2 Heq) as [-> ->].
Qed.

Lemma app_cons_assoc h a rest :
  h +:+ String a rest = (h +:+ String a "") +:+ rest.
Proof.
  induction h as [|b h IH]; [done|].
  change (String b (h +:+ String a rest)
          = String b ((h +:+ String a "") +:+ rest)).
  by f_equal.
Qed.

Lemma app_last_inj a1 : forall a2 c,
  a1 +:+ String c "" = a2 +:+ String c "" -> a1 = a2.
Proof.
  induction a1 as [|x a1 IH]; intros [|y a2] c; simpl; try done.
  - intros [= _ Heq]. by destruct a2.
  - intros [= _ Heq]. by destruct a1.
  - intros [= -> Heq]. by rewrite (IH _ _ Heq).
Qed.

(** [net.JoinHostPort] keeps host and port apart: with ports written in
    decimal, two joined addresses are equal only for the same host and the
    same port. *)
Lemma JoinHostPort_inj host1 host2 (port1 port2 : N) :
  JoinHostPort host1 (pretty port1) = JoinHostPort host2 (pretty port2) ->
  host1 = host2 /\ port1 = port2.
Proof.
  unfold JoinHostPort. pose proof (pretty_N_no_colon port1) as Hp1.
  pose proof (pretty_N_no_colon port2) as Hp2.
  destruct (has_colon host1) eqn:Hc1, (has_colon host2) eqn:Hc2; intros Heq.
  - assert (Heq' : (host1 +:+ "]") +:+ String ":" (pretty port1)
                   = (host2 +:+ "]") +:+ String ":" (pretty port2)).
    { rewrite <- !app_cons_assoc. injection Heq as Heq. exact Heq. }
    destruct (split_at_last_colon _ _ _ _ Hp1 Hp2 Heq') as [Hh Hp].
    split; [by eapply app_last_inj | by apply (inj pretty)].
  - assert (Heq' : String "[" (host1 +:+ "]") +:+ String ":" (pretty port1)
                   = host2 +:+ String ":" (pretty port2)).
    { etrans; [|exact Heq].
      change (String "[" ((host1 +:+ "]") +:+ String ":" (pretty port1))
              = String "[" (host1 +:+ String "]" (String ":" (pretty port1)))).
      by rewrite <- app_cons_assoc. }
    destruct (split_at_last_colon _ _ _ _ Hp1 Hp2 Heq') as [Hh _].
    rewrite <- Hh in Hc2.
    change (has_colon (host1 +:+ "]") = false) in Hc2.
    rewrite has_colon_app, Hc1 in Hc2. done.
  - assert (Heq' : host1 +:+ String ":" (pretty port1)
                   = String "[" (host2 +:+ "]") +:+ String ":" (pretty port2)).
    { etrans; [exact Heq|].
      change (String "[" (host2 +:+ String "]" (String ":" (pretty port2)))
              = String "[" ((host2 +:+ "]") +:+ String ":" (pretty port2))).
      by rewrite <- app_cons_assoc. }
    destruct (split_at_last_colon _ _ _ _ Hp1 Hp2 Heq') as [Hh _].
    rewrite Hh in Hc1.
    change (has_colon (host2 +:+ "]") = false) in Hc1.
    rewrite has_colon_app, Hc2 in Hc1. done.
  - destruct (split_at_last_colon _ _ _ _ Hp1 Hp2 Heq) as [Hh Hp].
    split; [done | by apply (inj pretty)].
Qed.

(** [Initialize] of the TCP probe never fails, builds the same address
    however often it is called, and gives two probes the same address only
    when they have the same target and the same port. *)
Theorem Tcp_Initialize_address h1 h2 :
  (Initialize h1).1 = None
  /\ Initialize (Initialize h1).2 = Initialize h1
  /\ (URL (Initialize h1).2 = URL (Initialize h2).2 ->
      Tcp.Target (Config h1) = Tcp.Target (Config h2)
      /\ Tcp.Port (Config h1) = Tcp.Port (Config h2)).
Proof.
  split; [done|]. split; [done|]. simpl. apply JoinHostPort_inj.
Qed.

End TcpProbeFacts.

(** Two probes of one address under different names, and an IPv6 target. *)
Lemma Tcp_Initialize_address_witness :
  TcpProbe.URL
    (TcpProbe.Initialize
       (TcpProbe.NewTCPHealthcheck
          (Tcp.mkConfig "a" "" "::1" 8080 Second (2 * Second) false))).2
  = "[::1]:8080"
  /\ Tcp.Port (Tcp.mkConfig "a" "" "::1" 8080 Second (2 * Second) false)
     = Tcp.Port (Tcp.mkConfig "b" "" "::1" 8080 Second (5 * Second) true).
Proof.
  split; [reflexivity|].
  apply (proj2 (proj2 (Tcp_Initialize_address
                         (TcpProbe.NewTCPHealthcheck
                            (Tcp.mkConfig "a" "" "::1" 8080 Second
                               (2 * Second) false))
                         (TcpProbe.NewTCPHealthcheck
                            (Tcp.mkConfig "b" "" "::1" 8080 Second
                               (5 * Second) true))))).
  reflexivity.
Defined.

(** ** The handlers around the component *)

Section RouteFacts.
Import Registry Http Routes.
Context {H : Type} `{Healthcheck H} `{Described H}.

(** [DELETE /healthcheck/:name], both versions. The answer is 200 exactly
    when the name is not resident afterwards, which includes a name that was
    never resident: the component is then handed back untouched. Otherwise
    the resident probe failed to stop, it is still resident as its [Stop]
    left it, and the answer is an error whose text says "start". *)
Theorem DELETE_healthcheck_outcomes (c : Component H) (name : string) :
  (Healthchecks c !! name = None ->
   DELETE_healthcheck_v1 c name
   = (JSON 200 (Message ("Successfully deleted healthcheck " +:+ name)), c,
      [EvLock; EvUnlock])
   /\ DELETE_healthcheck_v2 c name
      = (JSON 200 (Messages ["Successfully deleted healthcheck " +:+ name]), c,
         [EvLock; EvUnlock]))
  /\ (((DELETE_healthcheck_v1 c name).1.1
       = JSON 200 (Message ("Successfully deleted healthcheck " +:+ name))
       /\ (DELETE_healthcheck_v2 c name).1.1
          = JSON 200 (Messages ["Successfully deleted healthcheck " +:+ name])
       /\ Healthchecks (DELETE_healthcheck_v1 c name).1.2 !! name = None
       /\ (DELETE_healthcheck_v2 c name).1.2 = (DELETE_healthcheck_v1 c name).1.2)
      \/ (exists old e,
            Healthchecks c !! name = Some old
            /\ (Stop old).1 = Some e
            /\ (DELETE_healthcheck_v1 c name).1.1
               = JSON 500
                   (Message ("Fail to start the healthcheck: "
                             +:+ "Fail to stop healthcheck " +:+ HName old
                             +:+ ": " +:+ e))
            /\ (DELETE_healthcheck_v2 c name).1.1
               = InternalError ("Fail to start the healthcheck: "
                                +:+ "Fail to stop healthcheck " +:+ HName old
                                +:+ ": " +:+ e)
            /\ Healthchecks (DELETE_healthcheck_v1 c name).1.2 !! name
               = Some (Stop old).2
            /\ (DELETE_healthcheck_v2 c name).1.2
               = (DELETE_healthcheck_v1 c name).1.2)).
Proof.
  unfold DELETE_healthcheck_v1, DELETE_healthcheck_v2, RemoveCheck.
  destruct (removeCheck_cases name c)
    as [[Hnone ->] | [(old & Hold & Hstop & ->) | (old & e & Hold & Hstop & ->)]];
    simpl.
  - split; [done|]. left. by rewrite Hnone.
  - split; [by rewrite Hold|]. left. by rewrite lookup_delete_eq.
  - split; [by rewrite Hold|]. right. exists old, e.
    by rewrite lookup_insert_eq.
Qed.

(** A probe that is not one-off, posted to the API, is handed to [AddCheck]
    with the source of the API and is not executed by the request. The
    answer is 201 exactly when the probe was inserted, and then it is
    resident under its name; every other answer carries the error of
    [AddCheck] and nothing was inserted. *)
Theorem handleCheck_periodic (c : Component H) (check : H)
    (elapsed : Z) (now : Time) :
  HOneOff check = false ->
  V1.handleCheck c check elapsed now
  = (match (AddCheck (SetSource SourceAPI check) c).1.1 with
     | None => JSON 201 (Message "Healthcheck successfully added")
     | Some e =>
         JSON 500
           (Message ("Fail to start the healthcheck " +:+ HName check
                     +:+ ": " +:+ e))
     end,
     (AddCheck (SetSource SourceAPI check) c).1.2,
     (AddCheck (SetSource SourceAPI check) c).2)
  /\ V2.handleCheck c check
     = (match (AddCheck (SetSource SourceAPI check) c).1.1 with
        | None => JSON 201 (Messages ["Healthcheck successfully added"])
        | Some e =>
            InternalError ("Fail to start the healthcheck " +:+ HName check
                           +:+ ": " +:+ e)
        end,
        (AddCheck (SetSource SourceAPI check) c).1.2,
        (AddCheck (SetSource SourceAPI check) c).2)
  /\ (forall name, EvExecute name ∉ (AddCheck (SetSource SourceAPI check) c).2)
  /\ match (AddCheck (SetSource SourceAPI check) c).1.1 with
     | None =>
         is_Some (Healthchecks (AddCheck (SetSource SourceAPI check) c).1.2
                  !! HName (SetSource SourceAPI check))
         /\ EvInsert (HName (SetSource SourceAPI check))
            ∈ (AddCheck (SetSource SourceAPI check) c).2
     | Some _ =>
         forall key, EvInsert key ∉ (AddCheck (SetSource SourceAPI check) c).2
     end.
Proof.
  intros Hperiodic. unfold V1.handleCheck, V2.handleCheck, addCheck.
  rewrite Hperiodic. set (tagged := SetSource SourceAPI check).
  split; [by destruct (AddCheck tagged c) as [[[e|] c'] evs]|].
  split; [by destruct (AddCheck tagged c) as [[[e|] c'] evs]|].
  destruct (AddCheck_cases tagged c)
    as [(e & _ & Hrun)
       | [(old & e & _ & Hold & _ & Hrun)
         | [(e & _ & _ & Hrun) | (_ & _ & Hrun)]]];
    rewrite Hrun; simpl.
  - split; intros key [=]%list_elem_of_singleton.
  - split; intros key Hin; repeat (apply elem_of_cons in Hin as [[=]|Hin]);
      by apply elem_of_nil in Hin.
  - split; intros key Hin; destruct (Healthchecks c !! HName tagged);
      repeat (apply elem_of_cons in Hin as [[=]|Hin]);
      by apply elem_of_nil in Hin.
  - split_and!.
    + intros key Hin. destruct (Healthchecks c !! HName tagged);
        repeat (apply elem_of_cons in Hin as [[=]|Hin]);
        by apply elem_of_nil in Hin.
    + rewrite lookup_insert_eq. by eexists.
    + destruct (Healthchecks c !! HName tagged); set_solver.
Qed.

End RouteFacts.

(** Deleting a name that is not resident beside ["web"]. *)
Lemma DELETE_healthcheck_outcomes_witness :
  Routes.DELETE_healthcheck_v1 Registry.one_probe "api"
  = (Http.JSON 200 (Http.Message "Successfully deleted healthcheck api"),
     Registry.one_probe, [Registry.EvLock; Registry.EvUnlock]).
Proof.
  apply (proj1 (DELETE_healthcheck_outcomes (H := Registry.Mock)
                  Registry.one_probe "api")).
  reflexivity.
Defined.

(** Posting a periodic probe named ["api"] beside ["web"]. *)
Lemma handleCheck_periodic_witness :
  Http.HOneOff (Registry.good "api") = false
  /\ (Http.V1.handleCheck Registry.one_probe (Registry.good "api") 0 100).1.1
     = Http.JSON 201 (Http.Message "Healthcheck successfully added").
Proof.
  split; [reflexivity|].
  assert (Hperiodic : Http.HOneOff (Registry.good "api") = false)
    by reflexivity.
  destruct (handleCheck_periodic (H := Registry.Mock) Registry.one_probe
              (Registry.good "api") 0 100 Hperiodic) as [Hv1 _].
  rewrite Hv1. reflexivity.
Defined.
